(** * Self-evolving code fixer: a shallow embedding of the agent core

    The development follows the three modules of the agent:
    - [agent/patcher.py]  (the patch gate: [write_edits_json], [apply_edits]),
    - [agent/reflect.py]  (the memory store: [load_memory], [save_memory],
      [reflect_update]),
    - [agent/graph.py] and [agent/cli.py] (the iteration controller).

    Python values are an inductive type [Val]; a Python [dict] is an
    insertion-ordered association list with unique keys.  Exceptions are an
    explicit [result] type.  The file system is a finite map from canonical
    absolute paths to nodes, which are regular files and directories
    (there are no symbolic links); every operation walks the path the
    way the kernel does.  Text is a [string] whose characters are the code points
    0..255. *)

From Stdlib Require Import ZArith Ascii String List Bool Lia.
From stdpp Require Import base option gmap strings list pretty.

Set Warnings "-register-all".

Local Open Scope string_scope.
Local Open Scope Z_scope.

(** ** Exceptions and the error monad *)

(** Why [apply_edits] rejects a batch: the four [raise ValueError(...)]
    sites of the function. *)
Inductive reject :=
| TooManyFiles (n max_files : Z)
| InvalidSchema (msg : string)
| UnsafePath (rel_path : string)
| BudgetExceeded (total limit : Z).

(** [EmbeddedNullByte] is the [ValueError("embedded null byte")] of a
    system call that is handed a path with a NUL character. *)
Inductive exn :=
| ValueError (r : reject)
| EmbeddedNullByte
| AttributeError
| TypeError
| KeyError
| FileNotFoundError
| FileExistsError
| NotADirectoryError
| IsADirectoryError.

Inductive result (A : Type) :=
| Ok (a : A)
| Raise (e : exn).
Arguments Ok {A} a.
Arguments Raise {A} e.

Global Instance result_ret : MRet result := fun A a => Ok a.
Global Instance result_bind : MBind result := fun A B k m =>
  match m with
  | Ok a => k a
  | Raise e => Raise e
  end.

Definition is_ok {A} (m : result A) : bool :=
  match m with Ok _ => true | Raise _ => false end.

(** [OSError] and its subclasses, as caught by [except OSError]. *)
Definition is_OSError (e : exn) : bool :=
  match e with
  | FileNotFoundError | FileExistsError | NotADirectoryError
  | IsADirectoryError => true
  | _ => false
  end.

(** ** Python values *)

Inductive Val :=
| VNone
| VBool (b : bool)
| VInt (z : Z)
| VStr (s : string)
| VList (l : list Val)
| VDict (d : list (string * Val)).

Abbreviation dict := (list (string * Val)).

Module Py.

(** [bool(v)] *)
Definition truthy (v : Val) : bool :=
  match v with
  | VNone => false
  | VBool b => b
  | VInt z => negb (z =? 0)
  | VStr s => negb (String.eqb s "")
  | VList l => match l with [] => false | _ => true end
  | VDict d => match d with [] => false | _ => true end
  end.

(** [d.get(k)], [None] of the option for a missing key. *)
Fixpoint get (k : string) (d : dict) : option Val :=
  match d with
  | [] => None
  | (k', v) :: d' => if String.eqb k k' then Some v else get k d'
  end.

(** [d.get(k, dflt)] *)
Definition get_default (k : string) (dflt : Val) (d : dict) : Val :=
  match get k d with Some v => v | None => dflt end.

(** [k in d] *)
Definition mem (k : string) (d : dict) : bool :=
  match get k d with Some _ => true | None => false end.

(** [d[k] = v]: an existing key keeps its position, a new key goes last. *)
Fixpoint set (k : string) (v : Val) (d : dict) : dict :=
  match d with
  | [] => [(k, v)]
  | (k', v') :: d' =>
      if String.eqb k k' then (k', v) :: d' else (k', v') :: set k v d'
  end.

(** [d.setdefault(k, v)], as the dictionary it leaves behind. *)
Definition setdefault (k : string) (v : Val) (d : dict) : dict :=
  if mem k d then d else set k v d.

(** [a or b] *)
Definition or_ (a b : Val) : Val := if truthy a then a else b.

(** [for x in v]: the items a [for] loop sees, [TypeError] for a value
    that is not iterable.  A string yields its characters, a dictionary
    its keys. *)
Fixpoint chars (s : string) : list Val :=
  match s with
  | EmptyString => []
  | String c s' => VStr (String c EmptyString) :: chars s'
  end.

Definition iter (v : Val) : result (list Val) :=
  match v with
  | VList l => Ok l
  | VStr s => Ok (chars s)
  | VDict d => Ok (map (fun kv => VStr (fst kv)) d)
  | _ => Raise TypeError
  end.

End Py.

(** ** Text *)

Module Str.

Fixpoint startswith (s pre : string) : bool :=
  match pre, s with
  | EmptyString, _ => true
  | String c pre', String d s' => if Ascii.eqb c d then startswith s' pre' else false
  | String _ _, EmptyString => false
  end.

(** [sep.join(l)] *)
Fixpoint join (sep : string) (l : list string) : string :=
  match l with
  | [] => ""
  | [x] => x
  | x :: l' => x ++ sep ++ join sep l'
  end.

(** [s.split(sep)] for a one-character separator. *)
Fixpoint split_go (sep : ascii) (cur : string) (s : string) : list string :=
  match s with
  | EmptyString => [cur]
  | String c s' =>
      if Ascii.eqb c sep then cur :: split_go sep "" s'
      else split_go sep (cur ++ String c "") s'
  end.
Definition split (sep : ascii) (s : string) : list string := split_go sep "" s.

(** [s.replace(old, new)] for a non-empty [old]: leftmost, non-overlapping
    occurrences.  [skip] counts the characters of a matched occurrence
    that are still to be dropped. *)
Fixpoint replace_go (old new : string) (skip : nat) (s : string) : string :=
  match s with
  | EmptyString => ""
  | String c s' =>
      match skip with
      | S k => replace_go old new k s'
      | O =>
          if startswith s old
          then new ++ replace_go old new (Nat.pred (String.length old)) s'
          else String c (replace_go old new O s')
      end
  end.
Definition replace (old new s : string) : string := replace_go old new O s.

(** The line boundaries of [str.splitlines] among the code points 0..255:
    LF, VT, FF, CR, FS, GS, RS and NEL. *)
Definition is_linebreak (c : ascii) : bool :=
  let n := nat_of_ascii c in
  (Nat.eqb n 10 || Nat.eqb n 11 || Nat.eqb n 12 || Nat.eqb n 13
   || Nat.eqb n 28 || Nat.eqb n 29 || Nat.eqb n 30 || Nat.eqb n 133)%bool.

Definition CR : ascii := ascii_of_nat 13.
Definition LF : ascii := ascii_of_nat 10.

(** [s.splitlines(keepends=False)]: CR LF counts as one boundary and a
    trailing boundary opens no empty last line. *)
Fixpoint splitlines_go (cur : string) (s : string) : list string :=
  match s with
  | EmptyString => if String.eqb cur "" then [] else [cur]
  | String c s' =>
      if is_linebreak c then
        match s' with
        | String d s'' =>
            if (Ascii.eqb c CR && Ascii.eqb d LF)%bool
            then cur :: splitlines_go "" s''
            else cur :: splitlines_go "" s'
        | EmptyString => [cur]
        end
      else splitlines_go (cur ++ String c "") s'
  end.
Definition splitlines (s : string) : list string := splitlines_go "" s.

End Str.

(** ** Paths and the file system *)

Module Posix.

(** *** [PurePosixPath] *)

(** A parsed path: the root ([""] for a relative path, ["/"] or ["//"])
    and the segments.  Parsing drops empty and ["."] segments and keeps
    [".."]. *)
Record PurePath := { anchor : string; segs : list string }.

Definition keep_segment (x : string) : bool :=
  negb (String.eqb x "" || String.eqb x ".").

Definition parse (s : string) : PurePath :=
  {| anchor :=
       if (Str.startswith s "//" && negb (Str.startswith s "///"))%bool
       then "//"
       else if Str.startswith s "/" then "/" else "";
     segs := List.filter keep_segment (Str.split "/"%char s) |}.

(** [PurePosixPath(s).parts] *)
Definition parts (p : PurePath) : list string :=
  if String.eqb (anchor p) "" then segs p else anchor p :: segs p.

(** [str(PurePosixPath(s))] *)
Definition to_str (p : PurePath) : string :=
  let s := anchor p ++ Str.join "/" (segs p) in
  if String.eqb s "" then "." else s.

(** *** Concrete paths

    A concrete path is absolute: its segments from the root, [".."]
    among them until the path is resolved.  The workspace is such a path
    with no [".."] left (the command line resolves it). *)
Abbreviation path := (list string).

(** [workspace / rel]: an absolute right operand replaces the left one. *)
Definition truediv (workspace : path) (rel : string) : path :=
  let p := parse rel in
  if String.eqb (anchor p) "" then (workspace ++ segs p)%list else segs p.

(** [p.parent] *)
Definition parent (p : path) : path := removelast p.

Definition step (cur : path) (seg : string) : path :=
  if String.eqb seg ".." then removelast cur else (cur ++ [seg])%list.

(** The canonical path of [p] on a file system without symbolic links:
    [".."] drops the segment before it, whether or not that segment
    exists. *)
Definition resolve (p : path) : path := fold_left step p [].

Definition NUL : ascii := ascii_of_nat 0.

(** [chr(0) in s] *)
Fixpoint has_nul (s : string) : bool :=
  match s with
  | EmptyString => false
  | String c s' => (Ascii.eqb c NUL || has_nul s')%bool
  end.

(** [p.resolve()], the call.  [os.path.realpath] hands every segment
    other than [".."] to [lstat], which raises [ValueError] for a
    segment with a NUL character; a segment that does not exist is no
    error.  The file system holds regular files and directories only
    (see [node] below), so that no segment is a symbolic link and the
    result is [resolve p] whatever the file system holds. *)
Definition Path_resolve (p : path) : result path :=
  if existsb has_nul p then Raise EmbeddedNullByte else Ok (resolve p).

(** [str(p)] of a concrete path. *)
Definition path_str (p : path) : string := "/" ++ Str.join "/" p.

(** *** The file system

    Regular files and directories; there are no symbolic links, and the
    paths the operations below are handed have no NUL character (the
    workspace is the path of a directory, and a proposed path reaches
    them only after [_is_safe_path] has resolved it). *)

Inductive node :=
| File (content : string)
| Dir.

(** Nodes by canonical path; the root is a directory and has no entry. *)
Abbreviation FS := (gmap (list string) node).

Definition is_dir_at (fs : FS) (c : path) : bool :=
  match c with
  | [] => true
  | _ => match fs !! c with Some Dir => true | _ => false end
  end.

Definition exists_at (fs : FS) (c : path) : bool :=
  match c with
  | [] => true
  | _ => match fs !! c with Some _ => true | None => false end
  end.

(** The text of the regular file at a canonical path. *)
Definition file_at (fs : FS) (c : path) : option string :=
  match fs !! c with Some (File s) => Some s | _ => None end.

(** Path lookup as the kernel does it: every segment, [".."] included,
    is looked up in a directory that exists.  The result is the canonical
    path of the last segment, which itself may not exist. *)
Fixpoint walk (fs : FS) (cur : path) (p : path) : result path :=
  match p with
  | [] => Ok cur
  | seg :: p' =>
      if is_dir_at fs cur then walk fs (step cur seg) p'
      else if exists_at fs cur then Raise NotADirectoryError
      else Raise FileNotFoundError
  end.

(** [p.exists()] and [p.is_dir()] answer [False] when the lookup fails. *)
Definition exists_ (fs : FS) (p : path) : bool :=
  match walk fs [] p with Ok c => exists_at fs c | Raise _ => false end.

Definition is_dir (fs : FS) (p : path) : bool :=
  match walk fs [] p with Ok c => is_dir_at fs c | Raise _ => false end.

(** *** Actions: a state of the file system and exceptions

    An action returns the file system it leaves behind also when it
    raises: what was written before the exception stays written. *)
Definition M (A : Type) : Type := FS -> result A * FS.

#[global] Instance M_ret : MRet M := fun A a fs => (Ok a, fs).
#[global] Instance M_bind : MBind M := fun A B k m fs =>
  match m fs with
  | (Ok a, fs') => k a fs'
  | (Raise e, fs') => (Raise e, fs')
  end.

Definition raise {A} (e : exn) : M A := fun fs => (Raise e, fs).

(** An action that only reads. *)
Definition reads {A} (f : FS -> result A) : M A := fun fs => (f fs, fs).

(** [p.read_text()] *)
Definition read_text (p : path) : M string :=
  reads (fun fs =>
    match walk fs [] p with
    | Raise e => Raise e
    | Ok c =>
        if is_dir_at fs c then Raise IsADirectoryError
        else match fs !! c with
             | Some (File s) => Ok s
             | _ => Raise FileNotFoundError
             end
    end).

(** [p.write_text(s)]: creates or truncates the file; the directory that
    holds it has to exist. *)
Definition write_text (p : path) (s : string) : M unit := fun fs =>
  match walk fs [] p with
  | Raise e => (Raise e, fs)
  | Ok c =>
      if is_dir_at fs c then (Raise IsADirectoryError, fs)
      else (Ok tt, <[c := File s]> fs)
  end.

(** [os.mkdir(p)] *)
Definition os_mkdir (p : path) : M unit := fun fs =>
  match walk fs [] p with
  | Raise e => (Raise e, fs)
  | Ok c =>
      if exists_at fs c then (Raise FileExistsError, fs)
      else (Ok tt, <[c := Dir]> fs)
  end.

(** The [except OSError] clause of [Path.mkdir] with [exist_ok=True]:
    the error is dropped when the path is a directory. *)
Definition unless_is_dir (p : path) (e : exn) : M unit := fun fs =>
  if (is_OSError e && is_dir fs p)%bool then (Ok tt, fs) else (Raise e, fs).

(** [p.mkdir(parents=False, exist_ok=True)] *)
Definition mkdir_exist_ok (p : path) : M unit := fun fs =>
  match os_mkdir p fs with
  | (Ok _, fs') => (Ok tt, fs')
  | (Raise FileNotFoundError, fs') => (Raise FileNotFoundError, fs')
  | (Raise e, fs') => unless_is_dir p e fs'
  end.

(** [p.mkdir(parents=True, exist_ok=True)], by recursion on the segments
    of [p] from the last one: [rp] is [p] reversed, so that its tail is
    the reversed [p.parent]. *)
Fixpoint mkdir_parents_rev (rp : list string) : M unit := fun fs =>
  match os_mkdir (rev rp) fs with
  | (Ok _, fs') => (Ok tt, fs')
  | (Raise FileNotFoundError, fs') =>
      match rp with
      | [] => (Raise FileNotFoundError, fs')
      | _ :: rparent =>
          (mkdir_parents_rev rparent;; mkdir_exist_ok (rev rp)) fs'
      end
  | (Raise e, fs') => unless_is_dir (rev rp) e fs'
  end.

Definition mkdir_parents (p : path) : M unit := mkdir_parents_rev (rev p).

End Posix.

(** ** [difflib]

    [difflib.unified_diff(a, b, lineterm="")] as [_count_changed_lines]
    calls it: [SequenceMatcher(None, a, b)] with no junk predicate and the
    automatic junk heuristic on, three lines of context, empty file names
    and dates. *)

Module Difflib.

Local Open Scope nat_scope.

Inductive tag := Replace | Delete | Insert | Equal.

Definition tag_eqb (s t : tag) : bool :=
  match s, t with
  | Replace, Replace | Delete, Delete | Insert, Insert | Equal, Equal => true
  | _, _ => false
  end.

(** [(tag, i1, i2, j1, j2)] *)
Definition opcode : Type := tag * nat * nat * nat * nat.

(** [(i, j, k)]: [a[i:i+k] == b[j:j+k]] *)
Definition block : Type := nat * nat * nat.

(** [l[i1:i2]] *)
Definition slice {A} (l : list A) (i1 i2 : nat) : list A :=
  firstn (i2 - i1) (skipn i1 l).

Section Matcher.

Variables a b : list string.

Definition at_a (i : nat) : string := nth i a "".
Definition at_b (j : nat) : string := nth j b "".

(** The positions of [x] in [b], ascending: the entry of [b2j] for [x]
    as [__chain_b] first builds it. *)
Fixpoint indices_from (j : nat) (l : list string) (x : string) : list nat :=
  match l with
  | [] => []
  | y :: l' =>
      if String.eqb x y then j :: indices_from (S j) l' x
      else indices_from (S j) l' x
  end.

(** An element is popular when [b] has at least 200 items and the
    element more than [len(b) // 100 + 1] positions; [__chain_b] then
    deletes its entry. *)
Definition popular (x : string) : bool :=
  (200 <=? length b) && (length b / 100 + 1 <? length (indices_from 0 b x)).

(** [b2j.get(x, [])] *)
Definition b2j (x : string) : list nat :=
  if popular x then [] else indices_from 0 b x.

(** The inner loop of [find_longest_match], for one [i]: [st] holds the
    best match so far and [newj2len]. *)
Fixpoint scan_row (i blo bhi : nat) (j2len : gmap nat nat) (js : list nat)
    (st : block * gmap nat nat) : block * gmap nat nat :=
  match js with
  | [] => st
  | j :: js' =>
      if j <? blo then scan_row i blo bhi j2len js' st
      else if bhi <=? j then st
      else
        let k := match j with
                 | O => 0
                 | S j' => default 0 (j2len !! j')
                 end + 1 in
        let '((besti, bestj, bestsize), newj2len) := st in
        let best' := if bestsize <? k then (i + 1 - k, j + 1 - k, k)
                     else (besti, bestj, bestsize) in
        scan_row i blo bhi j2len js' (best', <[j := k]> newj2len)
  end.

(** The outer loop, over [range(alo, ahi)]. *)
Definition scan_rows (alo ahi blo bhi : nat) : block :=
  fst (fold_left
         (fun (st : block * gmap nat nat) i =>
            let '(best, j2len) := st in
            scan_row i blo bhi j2len (b2j (at_a i)) (best, ∅))
         (seq alo (ahi - alo)) ((alo, blo, 0), ∅)).

(** [while besti > alo and bestj > blo and a[besti-1] == b[bestj-1]] *)
Fixpoint extend_left (alo blo besti bestj bestsize : nat) : block :=
  match besti, bestj with
  | S i', S j' =>
      if (alo <=? i') && (blo <=? j') && String.eqb (at_a i') (at_b j')
      then extend_left alo blo i' j' (S bestsize)
      else (besti, bestj, bestsize)
  | _, _ => (besti, bestj, bestsize)
  end.

(** [while besti+bestsize < ahi and bestj+bestsize < bhi and
    a[besti+bestsize] == b[bestj+bestsize]]; [room] is
    [ahi - (besti+bestsize)]. *)
Fixpoint extend_right (room bhi besti bestj bestsize : nat) : nat :=
  match room with
  | O => bestsize
  | S room' =>
      if (bestj + bestsize <? bhi)
         && String.eqb (at_a (besti + bestsize)) (at_b (bestj + bestsize))
      then extend_right room' bhi besti bestj (S bestsize)
      else bestsize
  end.

(** [find_longest_match(alo, ahi, blo, bhi)].  The two loops that
    extend a match by junk never run: no element is junk. *)
Definition find_longest_match (alo ahi blo bhi : nat) : block :=
  let '(i0, j0, k0) := scan_rows alo ahi blo bhi in
  let '(i1, j1, k1) := extend_left alo blo i0 j0 k0 in
  (i1, j1, extend_right (ahi - (i1 + k1)) bhi i1 j1 k1).

(** The work list of [get_matching_blocks]; the head of [queue] is the
    entry [queue.pop()] takes.  A matched block removes at least one
    item of [a] from the ranges left to visit, which bounds the number
    of rounds. *)
Fixpoint blocks_loop (fuel : nat) (queue : list (nat * nat * nat * nat))
    (acc : list block) : list block :=
  match fuel, queue with
  | S fuel', (alo, ahi, blo, bhi) :: queue' =>
      let '(i, j, k) := find_longest_match alo ahi blo bhi in
      match k with
      | O => blocks_loop fuel' queue' acc
      | S _ =>
          let q1 := if (alo <? i) && (blo <? j)
                    then (alo, i, blo, j) :: queue' else queue' in
          let q2 := if (i + k <? ahi) && (j + k <? bhi)
                    then (i + k, ahi, j + k, bhi) :: q1 else q1 in
          blocks_loop fuel' q2 (acc ++ [(i, j, k)])
      end
  | _, _ => acc
  end.

(** Tuples compare lexicographically. *)
Definition block_leb (x y : block) : bool :=
  let '(i1, j1, k1) := x in
  let '(i2, j2, k2) := y in
  (i1 <? i2) || ((i1 =? i2) && ((j1 <? j2) || ((j1 =? j2) && (k1 <=? k2)))).

Fixpoint insert_block (x : block) (l : list block) : list block :=
  match l with
  | [] => [x]
  | y :: l' => if block_leb x y then x :: l else y :: insert_block x l'
  end.

Definition sort_blocks (l : list block) : list block :=
  fold_right insert_block [] l.

(** Adjacent blocks are merged; [cur] is [(i1, j1, k1)]. *)
Fixpoint collapse (cur : block) (l : list block) : list block :=
  let '(i1, j1, k1) := cur in
  match l with
  | [] => match k1 with O => [] | S _ => [cur] end
  | (i2, j2, k2) :: l' =>
      if (i1 + k1 =? i2) && (j1 + k1 =? j2)
      then collapse (i1, j1, k1 + k2) l'
      else match k1 with
           | O => collapse (i2, j2, k2) l'
           | S _ => cur :: collapse (i2, j2, k2) l'
           end
  end.

Definition get_matching_blocks : list block :=
  let la := length a in
  let lb := length b in
  let found := blocks_loop (2 * (la + lb) + 1) [(0, la, 0, lb)] [] in
  collapse (0, 0, 0) (sort_blocks found) ++ [(la, lb, 0)].

(** [get_opcodes()]: [i], [j] are the ends of the previous block. *)
Fixpoint opcodes_from (i j : nat) (bl : list block) : list opcode :=
  match bl with
  | [] => []
  | (ai, bj, size) :: bl' =>
      let change :=
        if (i <? ai) && (j <? bj) then [(Replace, i, ai, j, bj)]
        else if i <? ai then [(Delete, i, ai, j, bj)]
        else if j <? bj then [(Insert, i, ai, j, bj)]
        else [] in
      let same := match size with
                  | O => []
                  | S _ => [(Equal, ai, ai + size, bj, bj + size)]
                  end in
      change ++ same ++ opcodes_from (ai + size) (bj + size) bl'
  end.

Definition get_opcodes : list opcode := opcodes_from 0 0 get_matching_blocks.

End Matcher.

(** [get_grouped_opcodes(n)] *)

Definition fix_first (n : nat) (codes : list opcode) : list opcode :=
  match codes with
  | (Equal, i1, i2, j1, j2) :: codes' =>
      (Equal, Nat.max i1 (i2 - n), i2, Nat.max j1 (j2 - n), j2) :: codes'
  | _ => codes
  end.

Fixpoint fix_last (n : nat) (codes : list opcode) : list opcode :=
  match codes with
  | [] => []
  | [(Equal, i1, i2, j1, j2)] =>
      [(Equal, i1, Nat.min i2 (i1 + n), j1, Nat.min j2 (j1 + n))]
  | c :: codes' => c :: fix_last n codes'
  end.

Definition only_equal (group : list opcode) : bool :=
  match group with
  | [(Equal, _, _, _, _)] => true
  | _ => false
  end.

(** The loop over [codes]: a long run without changes closes the current
    group and opens the next one. *)
Fixpoint group_loop (n : nat) (codes : list opcode) (group : list opcode)
    : list (list opcode) :=
  match codes with
  | [] =>
      match group with
      | [] => []
      | _ => if only_equal group then [] else [group]
      end
  | (t, i1, i2, j1, j2) :: codes' =>
      if tag_eqb t Equal && (n + n <? i2 - i1)
      then
        (group ++ [(t, i1, Nat.min i2 (i1 + n), j1, Nat.min j2 (j1 + n))])%list
          :: group_loop n codes'
               [(t, Nat.max i1 (i2 - n), i2, Nat.max j1 (j2 - n), j2)]
      else group_loop n codes' (group ++ [(t, i1, i2, j1, j2)])%list
  end.

Definition get_grouped_opcodes (a b : list string) (n : nat)
    : list (list opcode) :=
  let codes := match get_opcodes a b with
               | [] => [(Equal, 0, 1, 0, 1)]
               | codes => codes
               end in
  group_loop n (fix_last n (fix_first n codes)) [].

(** [_format_range_unified(start, stop)] *)
Definition format_range_unified (start stop : nat) : string :=
  let beginning := start + 1 in
  let length := stop - start in
  if length =? 1 then pretty beginning
  else
    let beginning := if length =? 0 then beginning - 1 else beginning in
    (pretty beginning ++ "," ++ pretty length)%string.

Definition prefix_lines (c : string) (l : list string) : list string :=
  map (fun line => (c ++ line)%string) l.

Definition opcode_lines (a b : list string) (c : opcode) : list string :=
  let '(t, i1, i2, j1, j2) := c in
  match t with
  | Equal => prefix_lines " " (slice a i1 i2)
  | Replace =>
      (prefix_lines "-" (slice a i1 i2) ++ prefix_lines "+" (slice b j1 j2))%list
  | Delete => prefix_lines "-" (slice a i1 i2)
  | Insert => prefix_lines "+" (slice b j1 j2)
  end.

Definition hunk (a b : list string) (group : list opcode) : list string :=
  let '(_, f1, _, f3, _) := hd (Equal, 0, 0, 0, 0) group in
  let '(_, _, l2, _, l4) := List.last group (Equal, 0, 0, 0, 0) in
  ("@@ -" ++ format_range_unified f1 l2 ++ " +" ++ format_range_unified f3 l4
     ++ " @@")%string
    :: concat (map (opcode_lines a b) group).

(** [list(unified_diff(a, b, lineterm=""))]: the two header lines come
    before the first hunk and only when there is one. *)
Definition unified_diff (a b : list string) : list string :=
  match get_grouped_opcodes a b 3 with
  | [] => []
  | groups => "--- "%string :: "+++ "%string :: concat (map (hunk a b) groups)
  end.

End Difflib.

(** ** [json.dumps]

    [json.dumps(v, indent=2)] with the defaults otherwise: ASCII output,
    ["," ] between items and [": "] after a key, the keys in the order of
    the dictionary. *)

Module Json.

Definition hex_digit (n : nat) : ascii :=
  nth n ["0"; "1"; "2"; "3"; "4"; "5"; "6"; "7"; "8"; "9";
         "a"; "b"; "c"; "d"; "e"; "f"]%char "0"%char.

(** One character of a string literal: the short escapes, [\u00XX] for
    the other characters outside [" "] .. ["~"]. *)
Definition escape_char (c : ascii) : string :=
  let n := nat_of_ascii c in
  if Nat.eqb n 34 then String "\" (String c "")
  else if Nat.eqb n 92 then "\\"
  else if Nat.eqb n 10 then "\n"
  else if Nat.eqb n 13 then "\r"
  else if Nat.eqb n 9 then "\t"
  else if Nat.eqb n 8 then "\b"
  else if Nat.eqb n 12 then "\f"
  else if (Nat.leb 32 n && Nat.leb n 126)%bool then String c ""
  else "\u00" ++ String (hex_digit (Nat.div n 16)) (String (hex_digit (Nat.modulo n 16)) "").

Fixpoint escape (s : string) : string :=
  match s with
  | EmptyString => ""
  | String c s' => escape_char c ++ escape s'
  end.

Definition quote (s : string) : string :=
  String (ascii_of_nat 34) (escape s ++ String (ascii_of_nat 34) "").

Fixpoint spaces (n : nat) : string :=
  match n with O => "" | S n' => String " " (spaces n') end.

Definition newline_indent (level : nat) : string :=
  String Str.LF (spaces (2 * level)).

Fixpoint encode (level : nat) (v : Val) {struct v} : string :=
  match v with
  | VNone => "null"
  | VBool true => "true"
  | VBool false => "false"
  | VInt z => pretty z
  | VStr s => quote s
  | VList [] => "[]"
  | VList (x :: l) =>
      let nl := newline_indent (S level) in
      "[" ++ nl ++ encode (S level) x
        ++ (fix items (l : list Val) : string :=
              match l with
              | [] => ""
              | y :: l' => "," ++ nl ++ encode (S level) y ++ items l'
              end) l
        ++ newline_indent level ++ "]"
  | VDict [] => "{}"
  | VDict ((k, x) :: d) =>
      let nl := newline_indent (S level) in
      "{" ++ nl ++ quote k ++ ": " ++ encode (S level) x
        ++ (fix entries (d : list (string * Val)) : string :=
              match d with
              | [] => ""
              | (k', y) :: d' =>
                  "," ++ nl ++ quote k' ++ ": " ++ encode (S level) y ++ entries d'
              end) d
        ++ newline_indent level ++ "}"
  end.

Definition dumps (v : Val) : string := encode 0 v.

End Json.

Import Posix.

(** ** What the agent calls and the embedding leaves open

    The parser of [json], the regular-expression searches
    of [re], [str()] of a value that is not a string, the clock, the
    planner and the test runner.  The planner and the runner are actions:
    they may read and change the workspace and may raise. *)
Record Externals := {
  (** [json.loads(s)]; [None] when it raises *)
  json_loads : string -> option Val;
  (** [str(v)] for a [v] that is not a string *)
  py_str : Val -> string;
  (** [re.search(regex, log, flags=re.IGNORECASE | re.DOTALL)] finds a match *)
  re_search : string -> string -> bool;
  (** group 1 of the [NameError] search of [reflect_update] *)
  re_name_error : string -> option string;
  (** [re.escape(sym)] *)
  re_escape : string -> string;
  (** [int(time.time())] *)
  time_time : Z;
  (** [str(e)] of an exception [e] that is not a [ValueError] *)
  exc_str : exn -> string;
  (** [plan_fix(memory, test_log, file_summaries, workspace)] *)
  plan_fix : Val -> Val -> Val -> path -> M Val;
  (** [subprocess.run([sys.executable, "-m", "pytest", ...], cwd=ws)]:
      return code, standard output, standard error *)
  pytest : path -> M (Z * string * string)
}.

(** ** [agent/patcher.py] *)

Module Patcher.

Definition _WHITELIST_ROOT : string := "app".

Section WithExternals.

Context (E : Externals).

(** [str(v)] *)
Definition str (v : Val) : string :=
  match v with VStr s => s | _ => py_str E v end.

(** One entry of the payload; [p.get] needs a dictionary. *)
Definition edit_entry (p : Val) : result Val :=
  match p with
  | VDict d =>
      Ok (VDict
            [("path", VStr (to_str (parse (str (Py.get_default "path" (VStr "") d)))));
             ("newText", Py.get_default "new_text" (VStr "") d)])
  | _ => Raise AttributeError
  end.

Fixpoint edit_entries (items : list Val) : result (list Val) :=
  match items with
  | [] => Ok []
  | p :: rest =>
      match edit_entry p with
      | Raise e => Raise e
      | Ok x =>
          match edit_entries rest with
          | Raise e => Raise e
          | Ok xs => Ok (x :: xs)
          end
      end
  end.

(** The list the loop of [write_edits_json] builds. *)
Definition payload (patches : Val) : result (list Val) :=
  match Py.iter (Py.or_ patches (VList [])) with
  | Raise e => Raise e
  | Ok items => edit_entries items
  end.

Definition edits_path (workspace : path) : path :=
  (workspace ++ [".selfevolve"; "edits.json"])%list.

Definition write_edits_json (workspace : path) (patches : Val) : M unit :=
  let out_dir := (workspace ++ [".selfevolve"])%list in
  mkdir_parents out_dir;;
  match payload patches with
  | Raise e => raise e
  | Ok pl => write_text (out_dir ++ ["edits.json"])%list (Json.dumps (VList pl))
  end.

End WithExternals.

(** *** Safety helpers *)

(** The body of the [try] of [_is_safe_path]. *)
Definition is_safe_path_try (workspace : path) (rel_path : string) : result bool :=
  let rel := parse rel_path in
  match parts rel with
  | [] => Ok false
  | first :: _ =>
      if negb (String.eqb first _WHITELIST_ROOT) then Ok false
      else
        abs_path ← Path_resolve (truediv workspace rel_path);
        root ← Path_resolve (truediv workspace _WHITELIST_ROOT);
        Ok (Str.startswith (path_str abs_path) (path_str root))
  end.

(** [except Exception: return False]: a path [resolve()] raises for is
    refused. *)
Definition _is_safe_path (workspace : path) (rel_path : string) : bool :=
  match is_safe_path_try workspace rel_path with
  | Ok safe => safe
  | Raise _ => false
  end.

Definition is_str (v : Val) : bool :=
  match v with VStr _ => true | _ => false end.

Definition _validate_schema (patch : Val) : bool * string :=
  match patch with
  | VDict d =>
      match Py.get "path" d, Py.get "new_text" d with
      | Some path, Some new_text =>
          if negb (is_str path) then (false, "'path' must be a string")
          else if negb (is_str new_text) then (false, "'new_text' must be a string")
          else (true, "")
      | _, _ => (false, "patch requires 'path' and 'new_text'")
      end
  | _ => (false, "patch must be a dict")
  end.

Definition is_added (line : string) : bool :=
  (Str.startswith line "+" && negb (Str.startswith line "+++"))%bool.

Definition is_removed (line : string) : bool :=
  (Str.startswith line "-" && negb (Str.startswith line "---"))%bool.

Definition count_step (c : Z * Z) (line : string) : Z * Z :=
  let '(added, removed) := c in
  if is_added line then (added + 1, removed)
  else if is_removed line then (added, removed + 1)
  else (added, removed).

Definition _count_changed_lines (old_text new_text : string) : Z :=
  let diff := Difflib.unified_diff (Str.splitlines old_text)
                                   (Str.splitlines new_text) in
  let '(added, removed) := fold_left count_step diff (0, 0) in
  added + removed.

(** *** Applier *)

(** [p["path"]] and [p["new_text"]] of a patch that passed the schema
    check. *)
Definition field (k : string) (p : Val) : string :=
  match p with
  | VDict d => match Py.get k d with Some (VStr s) => s | _ => "" end
  | _ => ""
  end.

Definition normalize_newlines (s : string) : string :=
  Str.replace (String Str.CR "") (String Str.LF "")
    (Str.replace (String Str.CR (String Str.LF "")) (String Str.LF "") s).

(** The first loop of [apply_edits]: checks, the directory of the
    target, the running total; it returns [to_write]. *)
Fixpoint check_patches (workspace : path) (max_total_lines : Z)
    (patches : list Val) (total_changed : Z) (to_write : list (path * string))
    : M (list (path * string)) :=
  match patches with
  | [] => mret to_write
  | p :: rest =>
      let '(ok, msg) := _validate_schema p in
      if negb ok then raise (ValueError (InvalidSchema msg))
      else
        let rel_path := to_str (parse (field "path" p)) in
        if negb (_is_safe_path workspace rel_path)
        then raise (ValueError (UnsafePath rel_path))
        else
          let file_path := truediv workspace rel_path in
          mkdir_parents (parent file_path);;
          old_text ← (fun fs => (if exists_ fs file_path then read_text file_path
                                 else mret "") fs);
          let new_text := normalize_newlines (field "new_text" p) in
          let changed := _count_changed_lines old_text new_text in
          let total_changed := total_changed + changed in
          if max_total_lines <? total_changed
          then raise (ValueError (BudgetExceeded total_changed max_total_lines))
          else check_patches workspace max_total_lines rest total_changed
                 (to_write ++ [(file_path, new_text)])%list
  end.

(** The second loop: the writes. *)
Fixpoint write_all (to_write : list (path * string)) : M unit :=
  match to_write with
  | [] => mret tt
  | (fpath, content) :: rest => write_text fpath content;; write_all rest
  end.

(** [len(v)] *)
Definition len (v : Val) : result Z :=
  match v with
  | VList l => Ok (Z.of_nat (length l))
  | VStr s => Ok (Z.of_nat (String.length s))
  | VDict d => Ok (Z.of_nat (length d))
  | _ => Raise TypeError
  end.

Definition apply_edits (workspace : path) (patches : Val)
    (max_files max_total_lines : Z) : M unit :=
  let patches := Py.or_ patches (VList []) in
  match len patches, Py.iter patches with
  | Ok n, Ok items =>
      if n =? 0 then mret tt
      else if max_files <? n
      then raise (ValueError (TooManyFiles n max_files))
      else
        to_write ← check_patches workspace max_total_lines items 0 [];
        write_all to_write
  | Raise e, _ | _, Raise e => raise e
  end.

(** The message of each [ValueError]. *)
Definition reject_message (r : reject) : string :=
  match r with
  | TooManyFiles n max_files =>
      "Too many files to modify (" ++ pretty n ++ " > " ++ pretty max_files ++ ")."
  | InvalidSchema msg => "Invalid patch schema: " ++ msg
  | UnsafePath rel_path =>
      "Unsafe path (allowed only under '" ++ _WHITELIST_ROOT ++ "/'): " ++ rel_path
  | BudgetExceeded total limit =>
      "Change budget exceeded: " ++ pretty total ++ " lines > limit " ++ pretty limit
  end.

(** The defaults of the keyword arguments. *)
Definition default_max_files : Z := 3.
Definition default_max_total_lines : Z := 300.

End Patcher.

(** ** [agent/reflect.py] *)

Module Reflect.

(** *** Heuristic mining *)

Record pattern := { tag : string; regex : string; advice : string }.

Definition _PATTERNS : list pattern :=
  [ {| tag := "off_by_one";
       regex := "AssertionError.*==";
       advice := "Check +/- 1 around arithmetic or index bounds. Verify len/slicing." |};
    {| tag := "none_guard";
       regex := "TypeError: .*NoneType";
       advice := "Guard None inputs or provide defaults before arithmetic/attribute access." |};
    {| tag := "index_bounds";
       regex := "IndexError: list index out of range";
       advice := "Verify bounds; prefer enumerate or range(len(...))-1 checks." |};
    {| tag := "key_missing";
       regex := "KeyError: .+";
       advice := "Use dict.get with default or check key existence before access." |};
    {| tag := "import_missing";
       regex := "(ModuleNotFoundError|ImportError):\s*No module named\s+'?([\w\.]+)'?";
       advice := "Confirm package/install or relative import path; avoid shadowing stdlib names." |};
    {| tag := "type_mismatch";
       regex := "TypeError: .* (unsupported operand type|expected .* got .*)";
       advice := "Add type guards/casts; keep operations between compatible types." |} ].

(** The dictionary [{"tag": .., "pattern": .., "advice": ..}] of a rule. *)
Definition rule (tag pattern advice : string) : Val :=
  VDict [("tag", VStr tag); ("pattern", VStr pattern); ("advice", VStr advice)].

(** Lists and dictionaries cannot be members of a [set]. *)
Definition hashable (v : Val) : bool :=
  match v with VList _ | VDict _ => false | _ => true end.

Definition int_of (v : Val) : Z :=
  match v with
  | VInt z => z
  | VBool true => 1
  | _ => 0
  end.

(** [u == v] on hashable values; [True == 1] and [False == 0]. *)
Definition val_eqb (u v : Val) : bool :=
  match u, v with
  | VNone, VNone => true
  | VStr s, VStr t => String.eqb s t
  | (VBool _ | VInt _), (VBool _ | VInt _) => int_of u =? int_of v
  | _, _ => false
  end.

Fixpoint tuple_eqb (k1 k2 : list Val) : bool :=
  match k1, k2 with
  | [], [] => true
  | u :: k1', v :: k2' => val_eqb u v && tuple_eqb k1' k2'
  | _, _ => false
  end.

(** [k in seen] *)
Definition in_seen (k : list Val) (seen : list (list Val)) : bool :=
  existsb (tuple_eqb k) seen.

Definition default_key : list string := ["tag"; "regex"; "advice"].
Definition default_max_items : Z := 64.

(** The loop of [_dedupe]. *)
Fixpoint dedupe_loop (key : list string) (max_items : Z) (seq : list Val)
    (seen : list (list Val)) (out : list Val) : result (list Val) :=
  match seq with
  | [] => Ok out
  | item :: rest =>
      match item with
      | VDict d =>
          let k := map (fun k => Py.get_default k (VStr "") d) key in
          if negb (forallb hashable k) then Raise TypeError
          else
            let fresh := negb (in_seen k seen) in
            let seen' := if fresh then k :: seen else seen in
            let out' := if fresh then (out ++ [item])%list else out in
            if max_items <=? Z.of_nat (length out') then Ok out'
            else dedupe_loop key max_items rest seen' out'
      | _ => Raise AttributeError
      end
  end.

Definition _dedupe (seq : list Val) : result (list Val) :=
  dedupe_loop default_key default_max_items seq [] [].

Section WithExternals.

Context (E : Externals).

(** *** Persistence *)

Definition load_memory (mem_path : path) : M Val :=
  reads (fun fs =>
    let mem :=
      if exists_ fs mem_path then
        match fst (read_text mem_path fs) with
        | Ok raw =>
            match json_loads E (if String.eqb raw "" then "{}" else raw) with
            | Some v => v
            | None => VDict []
            end
        | Raise _ => VDict []
        end
      else VDict [] in
    match mem with
    | VDict d =>
        Ok (VDict (Py.setdefault "fix_snippets" (VList [])
                     (Py.setdefault "heuristics" (VList []) d)))
    | _ => Raise AttributeError
    end).

(** [save_memory] returns nothing; the model returns the dictionary
    with the time stamp the function sets in it. *)
Definition save_memory (mem_path : path) (memory : Val) : M Val :=
  mkdir_parents (parent mem_path);;
  match memory with
  | VDict d =>
      let memory := VDict (Py.set "_updated_at" (VInt (time_time E)) d) in
      write_text mem_path (Json.dumps memory);;
      mret memory
  | _ => raise TypeError
  end.

(** The rules of the table that match the log. *)
Definition mined (log : string) : list Val :=
  map (fun pat => rule (tag pat) (regex pat) (advice pat))
      (List.filter (fun pat => re_search E (regex pat) log) _PATTERNS).

Definition name_error_rule (log : string) : list Val :=
  match re_name_error E log with
  | Some sym =>
      [rule "name_error"
            ("NameError:.*\b" ++ re_escape E sym ++ "\b")
            ("Define or import '" ++ sym ++ "' before use; check scope.")]
  | None => []
  end.

Definition reflect_update (memory test_log : Val) : result Val :=
  let d := match memory with
           | VDict d => d
           | _ => [("heuristics", VList []); ("fix_snippets", VList [])]
           end in
  let d := Py.setdefault "fix_snippets" (VList [])
             (Py.setdefault "heuristics" (VList []) d) in
  match Py.or_ test_log (VStr "") with
  | VStr log =>
      let new_rules := (mined log ++ name_error_rule log)%list in
      match Py.iter (Py.get_default "heuristics" VNone d) with
      | Raise e => Raise e
      | Ok existing =>
          match _dedupe (existing ++ new_rules)%list with
          | Raise e => Raise e
          | Ok hs => Ok (VDict (Py.set "heuristics" (VList hs) d))
          end
      end
  | _ => Raise TypeError
  end.

End WithExternals.

End Reflect.

(** ** [agent/graph.py] *)

Module Graph.

(** The state [S] is a dictionary; the nodes of the graph mutate it. *)
Abbreviation S := dict.

Inductive node := ReadContext | PlanFix | ApplyPatch | RunTests | Reflect.

Definition node_eqb (m n : node) : bool :=
  match m, n with
  | ReadContext, ReadContext | PlanFix, PlanFix | ApplyPatch, ApplyPatch
  | RunTests, RunTests | Reflect, Reflect => true
  | _, _ => false
  end.

(** Where an edge leads: a node or [END]. *)
Inductive target := To (n : node) | END.

(** An operand of [+] or [>=] with an integer: [TypeError] unless it is
    an integer or a Boolean. *)
Definition as_int (v : Val) : result Z :=
  match v with
  | VInt z => Ok z
  | VBool b => Ok (if b then 1 else 0)
  | _ => Raise TypeError
  end.

(** [bool(state.get(k))] *)
Definition flag (k : string) (state : S) : bool :=
  match Py.get k state with Some v => Py.truthy v | None => false end.

Definition _route_after_apply (state : S) : target :=
  if flag "error_flag" state then END else To RunTests.

Definition _route_after_tests (state : S) : result target :=
  if flag "error_flag" state then Ok END
  else if flag "test_passed" state then Ok END
  else
    match as_int (Py.get_default "iter" (VInt 0) state),
          as_int (Py.get_default "max_iters" (VInt 3) state) with
    | Ok i, Ok m => if m <=? i + 1 then Ok END else Ok (To Reflect)
    | Raise e, _ | _, Raise e => Raise e
    end.

Section Build.

(** The five callables [build_graph] is given. *)
Variables read_context plan_fix apply_patch run_tests reflect : S -> M S.

Definition run_node (n : node) : S -> M S :=
  match n with
  | ReadContext => read_context
  | PlanFix => plan_fix
  | ApplyPatch => apply_patch
  | RunTests => run_tests
  | Reflect => reflect
  end.

(** The edges: [add_edge] and [add_conditional_edges]. *)
Definition route (n : node) (state : S) : result target :=
  match n with
  | ReadContext => Ok (To PlanFix)
  | PlanFix => Ok (To ApplyPatch)
  | ApplyPatch => Ok (_route_after_apply state)
  | RunTests => _route_after_tests state
  | Reflect => Ok (To PlanFix)
  end.

(** The compiled graph, run from node [n]: the nodes visited from [n]
    on and the final state; [None] when [fuel] nodes were not enough
    to reach [END]. *)
Fixpoint run (fuel : nat) (n : node) (state : S) : M (option (list node * S)) :=
  match fuel with
  | O => mret None
  | Datatypes.S fuel' =>
      state' ← run_node n state;
      match route n state' with
      | Raise e => raise e
      | Ok END => mret (Some ([n], state'))
      | Ok (To n') =>
          r ← run fuel' n' state';
          mret (match r with
                | Some (visited, final) => Some (n :: visited, final)
                | None => None
                end)
      end
  end.

(** [build_graph(...).invoke(initial)]: the entry point is
    [ReadContext]. *)
Definition invoke (fuel : nat) (initial : S) : M (option (list node * S)) :=
  run fuel ReadContext initial.

End Build.

End Graph.

(** ** [agent/cli.py] *)

Module Cli.

Import Graph.

Section WithExternals.

Context (E : Externals).

(** [Path(state["repo"])]: the entry holds the resolved, absolute path
    of the workspace. *)
Definition repo (state : S) : result path :=
  match Py.get "repo" state with
  | Some (VStr s) => Ok (segs (parse s))
  | Some _ => Raise TypeError
  | None => Raise KeyError
  end.

Definition memory_path (ws : path) : path := (ws ++ ["agent"; "memory.json"])%list.

(** [summarize_files(workspace, paths, max_lines)] of [agent/planner.py] *)
Fixpoint summarize_files (workspace : path) (paths : list string)
    (max_lines : nat) (out : dict) : M dict :=
  match paths with
  | [] => mret out
  | rel :: rest =>
      let fp := truediv workspace rel in
      out' ← (fun fs =>
                (if exists_ fs fp
                 then (text ← read_text fp;
                       mret (Py.set rel
                               (VStr (Str.join (String Str.LF "")
                                        (firstn max_lines (Str.splitlines text))))
                               out))
                 else mret out) fs);
      summarize_files workspace rest max_lines out'
  end.

Definition read_context (state : S) : M S :=
  match repo state with
  | Raise e => raise e
  | Ok ws =>
      memory ← Reflect.load_memory E (memory_path ws);
      let state := Py.set "memory" memory state in
      summaries ← summarize_files ws ["app/main.py"; "tests/test_main.py"] 80 [];
      mret (Py.set "file_summaries" (VDict summaries) state)
  end.

Definition node_plan_fix (state : S) : M S :=
  match repo state with
  | Raise e => raise e
  | Ok ws =>
      patches ← plan_fix E (Py.get_default "memory" (VDict []) state)
                           (Py.get_default "test_log" (VStr "") state)
                           (Py.get_default "file_summaries" (VDict []) state)
                           ws;
      mret (Py.set "patches" patches state)
  end.

(** [f"{e}"] *)
Definition str_exc (e : exn) : string :=
  match e with
  | ValueError r => Patcher.reject_message r
  | EmbeddedNullByte => "embedded null byte"
  | _ => exc_str E e
  end.

Definition node_apply_patch (state : S) : M S :=
  match repo state with
  | Raise e => raise e
  | Ok ws =>
      let patches := Py.or_ (Py.get_default "patches" (VList []) state) (VList []) in
      fun fs =>
        match (if Py.truthy patches
               then (Patcher.write_edits_json E ws patches;;
                     Patcher.apply_edits ws patches
                       Patcher.default_max_files Patcher.default_max_total_lines)
               else mret tt) fs with
        | (Ok _, fs') => (Ok (Py.set "error_flag" (VBool false) state), fs')
        | (Raise e, fs') =>
            (Ok (Py.set "message" (VStr ("apply_patch error: " ++ str_exc e))
                   (Py.set "error_flag" (VBool true) state)), fs')
        end
  end.

Definition node_run_tests (state : S) : M S :=
  match repo state with
  | Raise e => raise e
  | Ok ws =>
      '(returncode, stdout, stderr) ← pytest E ws;
      let log := stdout ++ String Str.LF "" ++ stderr in
      mret (Py.set "test_log" (VStr log)
              (Py.set "tests_passed" (VBool (returncode =? 0)) state))
  end.

Definition node_reflect (state : S) : M S :=
  match repo state with
  | Raise e => raise e
  | Ok ws =>
      match Reflect.reflect_update E (Py.get_default "memory" (VDict []) state)
                                     (Py.get_default "test_log" (VStr "") state) with
      | Raise e => raise e
      | Ok mem =>
          mem ← Reflect.save_memory E (memory_path ws) mem;
          let state := Py.set "memory" mem state in
          match as_int (Py.get_default "iter" (VInt 0) state) with
          | Raise e => raise e
          | Ok i => mret (Py.set "iter" (VInt (i + 1)) state)
          end
      end
  end.

(** The state [main] starts from. *)
Definition initial (workspace : string) (max_iters : Z) : S :=
  [("repo", VStr workspace); ("iter", VInt 0); ("max_iters", VInt max_iters)].

(** [compile_app(...).invoke(initial)] *)
Definition app (fuel : nat) (state : S) : M (option (list node * S)) :=
  invoke read_context node_plan_fix node_apply_patch node_run_tests
         node_reflect fuel state.

End WithExternals.

End Cli.

(** ** Vocabulary for the statements about the loop *)

Module Loop.

Import Graph.

(** How many times a run visited [n]. *)
Definition visits (n : node) (visited : list node) : nat :=
  length (List.filter (node_eqb n) visited).

(** A test runner that reports failure whenever it returns. *)
Definition always_fails (E : Externals) : Prop :=
  forall ws fs returncode stdout stderr fs',
    pytest E ws fs = (Ok (returncode, stdout, stderr), fs') -> returncode <> 0.

(** A test runner that reports success whenever it returns. *)
Definition always_passes (E : Externals) : Prop :=
  forall ws fs returncode stdout stderr fs',
    pytest E ws fs = (Ok (returncode, stdout, stderr), fs') -> returncode = 0.

(** The entries of the state the routing reads: the key [test_passed]
    that [_route_after_tests] asks for is not set, [iter] is [i] and
    [max_iters] is [m]. *)
Definition control (i m : Z) (state : S) : Prop :=
  Py.get "test_passed" state = None
  /\ Py.get "iter" state = Some (VInt i)
  /\ Py.get "max_iters" state = Some (VInt m).

(** [tests_passed] holds what some call of the runner returned. *)
Definition reported (E : Externals) (state : S) : Prop :=
  exists ws fs returncode stdout stderr fs',
    pytest E ws fs = (Ok (returncode, stdout, stderr), fs')
    /\ Py.get "tests_passed" state = Some (VBool (returncode =? 0)).

(** What a run that starts with [iter = i] and [max_iters = m] ends in,
    [k] being the number of [Reflect] steps left: an exception that left
    a node, or [END].  At [END] after a fatal error the run made at most
    [k] [Reflect] steps; otherwise it made exactly [k], the last node
    was [RunTests] and [iter] is [i + k]. *)
Definition ends (E : Externals) (i : Z) (k : nat)
    (out : result (option (list node * S))) : Prop :=
  match out with
  | Raise _ => True
  | Ok None => False
  | Ok (Some (visited, final)) =>
      Py.get "iter" final = Some (VInt (i + Z.of_nat (visits Reflect visited)))
      /\ if flag "error_flag" final
         then (visits Reflect visited <= k)%nat
         else visits Reflect visited = k
              /\ visits RunTests visited = Datatypes.S k
              /\ reported E final
  end.

(** [state.get("iter", 0)] as an integer. *)
Definition iter_of (state : S) : result Z :=
  as_int (Py.get_default "iter" (VInt 0) state).

(** A run with [max_iters = 3] and a runner that always fails: unless an
    exception leaves a node, the graph reaches [END]; [iter] counts the
    [Reflect] steps; after a fatal error there were at most two of them,
    otherwise exactly two, and [tests_passed] is [False]. *)
Definition stops_failing (out : result (option (list node * S))) : Prop :=
  match out with
  | Raise _ => True
  | Ok None => False
  | Ok (Some (visited, final)) =>
      Py.get "iter" final = Some (VInt (Z.of_nat (visits Reflect visited)))
      /\ if flag "error_flag" final
         then (visits Reflect visited <= 2)%nat
         else visits Reflect visited = 2%nat
              /\ visits RunTests visited = 3%nat
              /\ Py.get "iter" final = Some (VInt 2)
              /\ Py.get "tests_passed" final = Some (VBool false)
  end.

(** A run with [max_iters = 3] and a runner that always passes, when it
    reaches [END] without a fatal error: it went through [Reflect] twice
    and ran the tests three times. *)
Definition keeps_going (out : result (option (list node * S))) : Prop :=
  match out with
  | Raise _ => True
  | Ok None => False
  | Ok (Some (visited, final)) =>
      flag "error_flag" final = false ->
      visits Reflect visited = 2%nat
      /\ visits RunTests visited = 3%nat
      /\ Py.get "iter" final = Some (VInt 2)
      /\ Py.get "tests_passed" final = Some (VBool true)
  end.

End Loop.

(** ** Vocabulary for the statements about the file system *)

Module Effects.

(** [fs'] has the nodes of [fs] and, where [fs] had nothing, possibly a
    new directory. *)
Definition only_new_dirs (fs fs' : FS) : Prop :=
  forall c, fs' !! c = fs !! c \/ (fs !! c = None /\ fs' !! c = Some Dir).

(** Every directory of [fs] is a directory of [fs']. *)
Definition keeps_dirs (fs fs' : FS) : Prop :=
  forall c, fs !! c = Some Dir -> fs' !! c = Some Dir.

(** No regular file was created, changed or removed. *)
Definition same_files (fs fs' : FS) : Prop :=
  forall c, file_at fs' c = file_at fs c.

(** The concrete path a proposal targets. *)
Definition target (workspace : path) (p : Val) : path :=
  truediv workspace (to_str (parse (Patcher.field "path" p))).

(** A proposal the schema check or the path check refuses. *)
Definition refused (workspace : path) (p : Val) : Prop :=
  fst (Patcher._validate_schema p) = false
  \/ Patcher._is_safe_path workspace
       (to_str (parse (Patcher.field "path" p))) = false.

(** A concrete path that passes the test of [_is_safe_path]: the text
    of the resolved path starts with the text of the resolved writable
    root. *)
Definition passes_prefix_test (workspace : path) (p : path) : Prop :=
  Str.startswith (path_str (resolve p))
    (path_str (resolve (truediv workspace Patcher._WHITELIST_ROOT))) = true.

(** [state.get("patches", []) or []] *)
Definition proposed (state : dict) : Val :=
  Py.or_ (Py.get_default "patches" (VList []) state) (VList []).

(** The text on disk [apply_edits] compares a proposal with. *)
Definition on_disk (fs : FS) (p : path) : result string :=
  if exists_ fs p then fst (read_text p fs) else Ok "".

Definition is_dict (v : Val) : bool :=
  match v with VDict _ => true | _ => false end.

(** A batch every item of which has [get]: a list of dictionaries. *)
Definition list_of_dicts (patches : Val) : bool :=
  match patches with
  | VList items => forallb is_dict items
  | _ => false
  end.

(** The directory the artifact goes to. *)
Definition artifact_dir (workspace : path) : path :=
  (workspace ++ [".selfevolve"])%list.

End Effects.

(** ** Test doubles

    Concrete externals, workspaces and batches for the examples: a planner
    that proposes nothing, runners that always fail or always pass, a
    parser that knows the empty object and the empty array. *)

Module Fixture.

Definition loads (s : string) : option Val :=
  if String.eqb s "{}" then Some (VDict [])
  else if String.eqb s "[]" then Some (VList [])
  else None.

Definition no_plan (memory test_log file_summaries : Val) (ws : path) : M Val :=
  mret (VList []).

Definition failing_runner (ws : path) : M (Z * string * string) :=
  mret (1, "1 failed", "").

Definition passing_runner (ws : path) : M (Z * string * string) :=
  mret (0, "1 passed", "").

Definition externals (runner : path -> M (Z * string * string)) : Externals :=
  {| json_loads := loads;
     py_str := fun _ => "";
     re_search := fun _ _ => false;
     re_name_error := fun _ => None;
     re_escape := fun s => s;
     time_time := 0;
     exc_str := fun _ => "";
     plan_fix := no_plan;
     pytest := runner |}.

Definition workspace : path := ["ws"].

(** A workspace with [app/main.py]. *)
Definition fs_app : FS :=
  <[ ["ws"; "app"; "main.py"] := File "def inc(x):
    return x - 1
" ]> (<[ ["ws"; "app"] := Dir ]> (<[ ["ws"] := Dir ]> ∅)).

(** The same workspace after an earlier step left an artifact. *)
Definition fs_stale : FS :=
  <[ ["ws"; ".selfevolve"; "edits.json"] := File "stale" ]>
    (<[ ["ws"; ".selfevolve"] := Dir ]> fs_app).

(** The same workspace with a memory file that holds a JSON array. *)
Definition fs_array_memory : FS :=
  <[ ["ws"; "agent"; "memory.json"] := File "[]" ]>
    (<[ ["ws"; "agent"] := Dir ]> fs_app).

Definition patch (path new_text : string) : Val :=
  VDict [("path", VStr path); ("new_text", VStr new_text)].

(** [n] lines, each [line]. *)
Fixpoint lines (n : nat) (line : string) : string :=
  match n with
  | O => ""
  | Datatypes.S n' => line ++ String Str.LF "" ++ lines n' line
  end.


(** States at [ApplyPatch]: the planner proposed nothing, or one edit. *)
Definition state_empty_batch : dict :=
  Py.set "patches" (VList []) (Cli.initial "/ws" 3).

Definition state_one_edit : dict :=
  Py.set "patches"
    (VList [patch "app/main.py" "def inc(x):
    return x + 1
"]) (Cli.initial "/ws" 3).

(** A valid proposal followed by one that leaves the workspace. *)
Definition batch_unsafe : list Val :=
  [patch "app/main.py" "def inc(x):
    return x + 1
"; patch "../outside.py" "x = 1
"].


(** Two proposals for [app/main.py]. *)
Definition batch_same_path : list Val :=
  [patch "app/main.py" "def inc(x):
    return x + 1
"; patch "app/main.py" "def inc(x):
    return x + 2
"].

(** A new file of 301 lines that all start with [++]. *)
Definition batch_plus_plus : list Val :=
  [patch "app/counter.txt" (lines 301 "++x")].

(** A path that leaves [app] for a sibling whose name starts with
    [app]. *)
Definition batch_sibling : list Val :=
  [patch "app/../app2/x.py" "x = 1
"].

End Fixture.

(** ** Vocabulary for what a batch that is applied leaves on disk *)

Module Outcome.

(** One write of the second loop of [apply_edits]. *)
Definition put (fs : FS) (w : path * string) : FS :=
  <[resolve (fst w) := File (snd w)]> fs.

(** [to_write] for a batch: the target and the normalized text of each
    proposal, in the order of the batch. *)
Definition edits (workspace : path) (items : list Val) : list (path * string) :=
  map (fun p => (Effects.target workspace p,
                 Patcher.normalize_newlines (Patcher.field "new_text" p))) items.

(** A proposal that passes the schema check and the path check. *)
Definition accepted (workspace : path) (p : Val) : Prop :=
  fst (Patcher._validate_schema p) = true
  /\ Patcher._is_safe_path workspace
       (to_str (parse (Patcher.field "path" p))) = true.

(** The character [\r] does not occur in [s]. *)
Fixpoint no_cr (s : string) : bool :=
  match s with
  | EmptyString => true
  | String c s' => (negb (Ascii.eqb c Str.CR) && no_cr s')%bool
  end.

End Outcome.

(** ** Vocabulary for the statements about the rules *)

Module Rules.

(** The key [_dedupe] computes for an item. *)
Definition key_of (item : Val) : list Val :=
  match item with
  | VDict d => map (fun k => Py.get_default k (VStr "") d) Reflect.default_key
  | _ => []
  end.

(** An item [_dedupe] can take: a dictionary whose key is hashable. *)
Definition keyed (item : Val) : bool :=
  match item with
  | VDict _ => forallb Reflect.hashable (key_of item)
  | _ => false
  end.

(** Every key of the list differs from the keys after it: for the keys of
    a list of rules in reverse, every rule differs from the rules before
    it. *)
Fixpoint fresh_keys (seen : list (list Val)) : bool :=
  match seen with
  | [] => true
  | k :: seen' => (negb (Reflect.in_seen k seen') && fresh_keys seen')%bool
  end.

End Rules.

(** ** More test doubles *)

Module Doubles.

(** Externals whose parser reads the serialized [m] as [m] and nothing
    else. *)
Definition reading (m : Val) : Externals :=
  {| json_loads := fun s => if String.eqb s (Json.dumps m) then Some m else None;
     py_str := fun _ => "";
     re_search := fun _ _ => false;
     re_name_error := fun _ => None;
     re_escape := fun s => s;
     time_time := 7;
     exc_str := fun _ => "";
     plan_fix := Fixture.no_plan;
     pytest := Fixture.failing_runner |}.

(** A record as [reflect_update] leaves it. *)
Definition record : dict :=
  [("heuristics", VList [Reflect.rule "off_by_one" "AssertionError.*==" "Check +/- 1."]);
   ("fix_snippets", VList [])].

(** A state at [ApplyPatch] whose batch has an item that is no
    dictionary. *)
Definition state_stray_item : dict :=
  Py.set "patches"
    (VList [Fixture.patch "app/main.py" "def inc(x):
    return x + 1
"; VStr "app/main.py"]) (Cli.initial "/ws" 3).

(** A workspace where [.selfevolve] is a regular file. *)
Definition fs_blocked : FS :=
  <[ ["ws"; ".selfevolve"] := File "" ]> Fixture.fs_app.

(** A workspace whose memory file holds the empty object. *)
Definition fs_empty_object : FS :=
  <[ ["ws"; "agent"; "memory.json"] := File "{}" ]>
    (<[ ["ws"; "agent"] := Dir ]> Fixture.fs_app).

End Doubles.

(** * Properties *)

(** ** Dictionaries *)

Lemma get_set_eq k v (d : dict) : Py.get k (Py.set k v d) = Some v.
Proof.
  induction d as [|[k' v'] d IH]; simpl.
  - by rewrite String.eqb_refl.
  - destruct (String.eqb k k') eqn:Hk; simpl; rewrite Hk; [done | exact IH].
Qed.

Lemma get_set_ne k k' v (d : dict) :
  k <> k' -> Py.get k' (Py.set k v d) = Py.get k' d.
Proof.
  intros Hne. induction d as [|[k0 v0] d IH]; simpl.
  - destruct (String.eqb k' k) eqn:Hk; [|done].
    apply String.eqb_eq in Hk. congruence.
  - destruct (String.eqb k k0) eqn:Hk; simpl.
    + apply String.eqb_eq in Hk. subst k0.
      destruct (String.eqb k' k) eqn:Hk'; [|done].
      apply String.eqb_eq in Hk'. congruence.
    + destruct (String.eqb k' k0); [done | exact IH].
Qed.

Lemma get_default_set_ne k k' v dflt (d : dict) :
  k <> k' -> Py.get_default k' dflt (Py.set k v d) = Py.get_default k' dflt d.
Proof. intros. unfold Py.get_default. by rewrite get_set_ne. Qed.

Lemma flag_set_ne k k' v (d : dict) :
  k <> k' -> Graph.flag k' (Py.set k v d) = Graph.flag k' d.
Proof. intros. unfold Graph.flag. by rewrite get_set_ne. Qed.

Lemma flag_set_eq k b (d : dict) : Graph.flag k (Py.set k (VBool b) d) = b.
Proof. unfold Graph.flag. by rewrite get_set_eq. Qed.

(** ** The nodes of the command line: what each one changes in the state *)

Section Nodes.

Context (E : Externals).

Import Graph.

Lemma read_context_state st fs st' fs' :
  Cli.read_context E st fs = (Ok st', fs') ->
  exists memory summaries,
    st' = Py.set "file_summaries" summaries (Py.set "memory" memory st).
Proof.
  unfold Cli.read_context. destruct (Cli.repo st) as [ws|e]; [|done].
  unfold mbind, M_bind, mret, M_ret.
  destruct (Reflect.load_memory E (Cli.memory_path ws) fs) as [[mem|e] fs1]; [|done].
  destruct (Cli.summarize_files ws _ 80 [] fs1) as [[s|e] fs2]; [|done].
  intros [= <- <-]. eauto.
Qed.

Lemma node_plan_fix_state st fs st' fs' :
  Cli.node_plan_fix E st fs = (Ok st', fs') ->
  exists patches, st' = Py.set "patches" patches st.
Proof.
  unfold Cli.node_plan_fix. destruct (Cli.repo st) as [ws|e]; [|done].
  unfold mbind, M_bind, mret, M_ret.
  destruct (plan_fix E _ _ _ ws fs) as [[p|e] fs1]; [|done].
  intros [= <- <-]. eauto.
Qed.

Lemma node_apply_patch_state st fs st' fs' :
  Cli.node_apply_patch E st fs = (Ok st', fs') ->
  st' = Py.set "error_flag" (VBool false) st
  \/ exists msg, st' = Py.set "message" msg (Py.set "error_flag" (VBool true) st).
Proof.
  unfold Cli.node_apply_patch. destruct (Cli.repo st) as [ws|e]; [|done].
  match goal with |- context [match ?x fs with _ => _ end] => destruct (x fs) as [[u|e] fs1] end;
    intros [= <- <-]; eauto.
Qed.

Lemma node_run_tests_state st fs st' fs' :
  Cli.node_run_tests E st fs = (Ok st', fs') ->
  exists ws returncode stdout stderr,
    pytest E ws fs = (Ok (returncode, stdout, stderr), fs')
    /\ st' = Py.set "test_log" (VStr (stdout ++ String Str.LF "" ++ stderr))
               (Py.set "tests_passed" (VBool (returncode =? 0)) st).
Proof.
  unfold Cli.node_run_tests. destruct (Cli.repo st) as [ws|e]; [|done].
  unfold mbind, M_bind, mret, M_ret.
  destruct (pytest E ws fs) as [[[[rc out] err]|e] fs1] eqn:Hrun; [|done].
  intros [= <- <-]. eauto 10.
Qed.

Lemma node_reflect_state st fs st' fs' :
  Cli.node_reflect E st fs = (Ok st', fs') ->
  exists memory i,
    as_int (Py.get_default "iter" (VInt 0) st) = Ok i
    /\ st' = Py.set "iter" (VInt (i + 1)) (Py.set "memory" memory st).
Proof.
  unfold Cli.node_reflect. destruct (Cli.repo st) as [ws|e]; [|done].
  destruct (Reflect.reflect_update E _ _) as [mem|e]; [|done].
  unfold mbind, M_bind, mret, M_ret.
  destruct (Reflect.save_memory E (Cli.memory_path ws) mem fs) as [[mem'|e] fs1]; [|done].
  rewrite get_default_set_ne by done.
  destruct (as_int (Py.get_default "iter" (VInt 0) st)) as [i|e] eqn:Hi; [|done].
  intros [= <- <-]. eauto.
Qed.

End Nodes.

(** ** The loop *)

Section LoopFacts.

Context (E : Externals).

Import Graph Loop.

Abbreviation crun :=
  (run (Cli.read_context E) (Cli.node_plan_fix E) (Cli.node_apply_patch E)
       (Cli.node_run_tests E) (Cli.node_reflect E)).
Abbreviation cnode :=
  (run_node (Cli.read_context E) (Cli.node_plan_fix E) (Cli.node_apply_patch E)
            (Cli.node_run_tests E) (Cli.node_reflect E)).

Lemma run_unfold fuel n st fs :
  crun (Datatypes.S fuel) n st fs =
  match cnode n st fs with
  | (Raise e, fs') => (Raise e, fs')
  | (Ok st', fs') =>
      match route n st' with
      | Raise e => (Raise e, fs')
      | Ok END => (Ok (Some ([n], st')), fs')
      | Ok (To n') =>
          match crun fuel n' st' fs' with
          | (Raise e, fs'') => (Raise e, fs'')
          | (Ok r, fs'') =>
              (Ok (match r with
                   | Some (visited, final) => Some (n :: visited, final)
                   | None => None
                   end), fs'')
          end
      end
  end.
Proof.
  simpl. unfold mbind, M_bind.
  destruct (cnode n st fs) as [[st'|e] fs']; [|done].
  destruct (route n st') as [[n'|]|e]; try done.
Qed.

Lemma control_set k v i m st :
  k <> "test_passed" -> k <> "iter" -> k <> "max_iters" ->
  control i m st -> control i m (Py.set k v st).
Proof.
  intros ? ? ? (H1 & H2 & H3). unfold control.
  by rewrite !get_set_ne.
Qed.

Lemma control_set_iter v i j m st :
  control i m st -> control j m (Py.set "iter" (VInt j) (Py.set "memory" v st)).
Proof.
  intros (H1 & H2 & H3). unfold control.
  rewrite get_set_eq, !get_set_ne by done. done.
Qed.

Lemma route_after_tests_control i m st :
  control i m st -> flag "error_flag" st = false ->
  _route_after_tests st = Ok (if m <=? i + 1 then END else To Reflect).
Proof.
  intros (H1 & H2 & H3) Hflag. unfold _route_after_tests.
  rewrite Hflag. unfold flag at 1. rewrite H1.
  unfold Py.get_default. rewrite H2, H3. simpl.
  by destruct (m <=? i + 1).
Qed.

(** From [PlanFix] on: rounds of [PlanFix], [ApplyPatch], [RunTests],
    with a [Reflect] step between two rounds. *)
Lemma run_from_plan k :
  forall i m st fs fuel,
    control i m st -> k = Z.to_nat (m - 1 - i) -> (4 * k + 3 <= fuel)%nat ->
    ends E i k (fst (crun fuel PlanFix st fs)).
Proof.
  induction k as [|k IH]; intros i m st fs fuel Hc Hk Hfuel.
  all: destruct fuel as [|[|[|fuel]]]; [lia | lia | lia |].
  all: rewrite run_unfold; simpl run_node.
  all: destruct (Cli.node_plan_fix E st fs) as [[st1|e] fs1] eqn:H1; [|exact I].
  all: apply node_plan_fix_state in H1 as [patches ->].
  all: simpl route; cbv beta iota; rewrite run_unfold; simpl run_node.
  all: destruct (Cli.node_apply_patch E _ fs1) as [[st2|e] fs2] eqn:H2; [|exact I].
  all: apply node_apply_patch_state in H2 as [->|[msg ->]].
  all: simpl route; unfold _route_after_apply; cbv beta iota.
  all: try (rewrite flag_set_ne, flag_set_eq by done; unfold ends, visits; simpl;
            split; [rewrite !get_set_ne by done; destruct Hc as (_ & -> & _);
                    do 2 f_equal; lia
                   | rewrite flag_set_ne, flag_set_eq by done; simpl; lia]).
  all: rewrite flag_set_eq; rewrite run_unfold; simpl run_node.
  all: destruct (Cli.node_run_tests E _ fs2) as [[st3|e] fs3] eqn:H3; [|exact I].
  all: apply node_run_tests_state in H3 as (ws & rc & out & err & Hrun & ->).
  all: simpl route; cbv beta iota.
  all: erewrite route_after_tests_control;
    [| repeat apply control_set; try done; exact Hc
     | (rewrite !flag_set_ne, flag_set_eq by done); done].
  - (* no [Reflect] step is left *)
    assert ((m <=? i + 1) = true) as -> by lia.
    unfold ends, visits; simpl. split.
    + rewrite !get_set_ne by done. destruct Hc as (_ & -> & _). do 2 f_equal. lia.
    + rewrite !flag_set_ne, flag_set_eq by done.
      split; [done|]. split; [done|].
      exists ws, fs2, rc, out, err, fs3. split; [done|].
      by rewrite get_set_ne, get_set_eq.
  - (* a [Reflect] step and the remaining rounds *)
    assert ((m <=? i + 1) = false) as -> by lia.
    destruct fuel as [|fuel]; [lia|].
    rewrite run_unfold; simpl run_node.
    destruct (Cli.node_reflect E _ fs3) as [[st4|e] fs4] eqn:H4; [|exact I].
    apply node_reflect_state in H4 as (mem & j & Hj & ->).
    rewrite !get_default_set_ne in Hj by done.
    unfold Py.get_default in Hj. destruct Hc as (Hc1 & Hc2 & Hc3).
    rewrite Hc2 in Hj. simpl in Hj. injection Hj as <-.
    simpl route; cbv beta iota.
    match goal with |- context [crun fuel PlanFix ?s fs4] =>
      specialize (IH (i + 1) m s fs4 fuel) end.
    lapply IH; [clear IH; intros IH|].
    2:{ apply control_set_iter with (i := i).
        repeat apply control_set; try done. }
    specialize (IH ltac:(lia) ltac:(lia)).
    destruct (crun fuel PlanFix _ fs4) as [[[[visited final]|]|e] fs5];
      simpl in IH |- *; [|done|done].
    destruct IH as [Hiter Hrest]. split.
    + rewrite Hiter. do 2 f_equal. unfold visits. simpl. lia.
    + destruct (flag "error_flag" final).
      * unfold visits in *. simpl. lia.
      * destruct Hrest as (Hr & Ht & Hrep). unfold visits in *. simpl.
        repeat split; [lia | lia | done].
Qed.

(** The whole run, from the state [main] builds. *)
Lemma app_ends workspace m fs fuel :
  (4 * Z.to_nat (m - 1) + 4 <= fuel)%nat ->
  ends E 0 (Z.to_nat (m - 1)) (fst (Cli.app E fuel (Cli.initial workspace m) fs)).
Proof.
  intros Hfuel. destruct fuel as [|fuel]; [lia|].
  unfold Cli.app, invoke. rewrite run_unfold; simpl run_node.
  destruct (Cli.read_context E _ fs) as [[st1|e] fs1] eqn:H1; [|exact I].
  apply read_context_state in H1 as (memory & summaries & ->).
  simpl route; cbv beta iota.
  match goal with |- context [crun fuel PlanFix ?s fs1] =>
    pose proof (run_from_plan (Z.to_nat (m - 1)) 0 m s fs1 fuel) as H end.
  lapply H; [clear H; intros H|].
  2:{ repeat apply control_set; try done. }
  specialize (H ltac:(f_equal; lia) ltac:(lia)).
  destruct (crun fuel PlanFix _ fs1) as [[[[visited final]|]|e] fs2];
    simpl in H |- *; done.
Qed.

(** Every node but [Reflect] leaves [iter] alone. *)
Lemma iter_unchanged n st fs st' fs' :
  n <> Reflect -> cnode n st fs = (Ok st', fs') ->
  Py.get "iter" st' = Py.get "iter" st.
Proof.
  intros Hn Hrun. destruct n; simpl in Hrun; [| | | |done].
  - apply read_context_state in Hrun as (? & ? & ->). by rewrite !get_set_ne.
  - apply node_plan_fix_state in Hrun as (? & ->). by rewrite !get_set_ne.
  - apply node_apply_patch_state in Hrun as [->|[? ->]]; by rewrite !get_set_ne.
  - apply node_run_tests_state in Hrun as (? & ? & ? & ? & _ & ->).
    by rewrite !get_set_ne.
Qed.

(** [Reflect] adds one to it. *)
Lemma iter_incremented st fs st' fs' :
  Cli.node_reflect E st fs = (Ok st', fs') ->
  exists i, iter_of st = Ok i /\ Py.get "iter" st' = Some (VInt (i + 1)).
Proof.
  intros Hrun. apply node_reflect_state in Hrun as (mem & i & Hi & ->).
  exists i. split; [done|]. by rewrite get_set_eq.
Qed.

(** C2 (amended).  With [max_iters = 3] and a test runner that always
    reports failure, a run that no fatal error and no exception stops
    makes exactly two [Reflect] steps and three test runs, and halts with
    [iter = 2] and [tests_passed = False]; in every case [iter] is the
    number of [Reflect] steps made.  [iter] grows by exactly one in
    [Reflect] and no other node changes it. *)
Theorem always_failing_run_reflects_twice workspace fs fuel :
  always_fails E -> (12 <= fuel)%nat ->
  stops_failing (fst (Cli.app E fuel (Cli.initial workspace 3) fs))
  /\ (forall st fs0 st' fs1,
        Cli.node_reflect E st fs0 = (Ok st', fs1) ->
        exists i, iter_of st = Ok i /\ Py.get "iter" st' = Some (VInt (i + 1)))
  /\ (forall n st fs0 st' fs1,
        n <> Reflect -> cnode n st fs0 = (Ok st', fs1) ->
        Py.get "iter" st' = Py.get "iter" st).
Proof.
  intros Hfail Hfuel. split; [|split; [apply iter_incremented | apply iter_unchanged]].
  pose proof (app_ends workspace 3 fs fuel ltac:(simpl; lia)) as H.
  change (Z.to_nat (3 - 1)) with 2%nat in H.
  destruct (fst (Cli.app E fuel (Cli.initial workspace 3) fs))
    as [[[visited final]|]|e]; simpl in H |- *; [|done|done].
  destruct H as [Hiter H]. split; [by rewrite Hiter|].
  destruct (flag "error_flag" final); [done|].
  destruct H as (Hr & Ht & (ws & fs0 & rc & out & err & fs1 & Hrun & Hp)).
  repeat split; [done | done | by rewrite Hiter, Hr |].
  rewrite Hp. apply Hfail in Hrun. do 2 f_equal. lia.
Qed.

(** C1 (the code at the failing input, for every runner that passes).
    With [max_iters = 3] and a test runner that always reports success, a
    run that ends without a fatal error has gone through [Reflect] twice
    and has run the tests three times: [tests_passed = True] does not
    send [RunTests] to [END]. *)
Theorem passing_tests_do_not_stop_the_loop workspace fs fuel :
  always_passes E -> (12 <= fuel)%nat ->
  keeps_going (fst (Cli.app E fuel (Cli.initial workspace 3) fs)).
Proof.
  intros Hpass Hfuel.
  pose proof (app_ends workspace 3 fs fuel ltac:(simpl; lia)) as H.
  change (Z.to_nat (3 - 1)) with 2%nat in H.
  destruct (fst (Cli.app E fuel (Cli.initial workspace 3) fs))
    as [[[visited final]|]|e]; simpl in H |- *; [|done|done].
  intros Hflag. rewrite Hflag in H.
  destruct H as (Hiter & Hr & Ht & (ws & fs0 & rc & out & err & fs1 & Hrun & Hp)).
  repeat split; [done | done | by rewrite Hiter, Hr |].
  rewrite Hp. apply Hpass in Hrun. by subst rc.
Qed.

End LoopFacts.

(** ** The file system: only directories appear until the writes *)

Section FileSystemFacts.

Import Effects.

Lemma only_new_dirs_refl fs : only_new_dirs fs fs.
Proof. intros c. by left. Qed.

Lemma only_new_dirs_trans fs1 fs2 fs3 :
  only_new_dirs fs1 fs2 -> only_new_dirs fs2 fs3 -> only_new_dirs fs1 fs3.
Proof.
  intros H12 H23 c. destruct (H12 c) as [H|[H H']], (H23 c) as [K|[K K']].
  - left. congruence.
  - right. split; congruence.
  - right. split; congruence.
  - congruence.
Qed.

Lemma only_new_dirs_insert fs c :
  exists_at fs c = false -> only_new_dirs fs (<[c := Dir]> fs).
Proof.
  intros Hc c'. destruct (decide (c = c')) as [<-|Hne].
  - right. rewrite lookup_insert_eq. split; [|done].
    destruct c; [done|]. simpl in Hc. by destruct (fs !! (s :: c)).
  - left. by rewrite lookup_insert_ne.
Qed.

Lemma only_new_dirs_same_files fs fs' : only_new_dirs fs fs' -> same_files fs fs'.
Proof.
  intros H c. unfold file_at. destruct (H c) as [->|[-> ->]]; done.
Qed.

Lemma only_new_dirs_keeps_dirs fs fs' : only_new_dirs fs fs' -> keeps_dirs fs fs'.
Proof. intros H c Hc. destruct (H c) as [->|[? ?]]; congruence. Qed.

Lemma is_dir_at_keeps fs fs' c :
  keeps_dirs fs fs' -> is_dir_at fs c = true -> is_dir_at fs' c = true.
Proof.
  intros H. destruct c as [|s c]; [done|]. simpl.
  destruct (fs !! (s :: c)) as [[|]|] eqn:Hc; try done.
  by rewrite (H _ Hc).
Qed.

Lemma is_dir_at_mono fs fs' c :
  only_new_dirs fs fs' -> is_dir_at fs c = true -> is_dir_at fs' c = true.
Proof. intros H. by apply is_dir_at_keeps, only_new_dirs_keeps_dirs. Qed.

Lemma walk_resolve fs p : forall cur c,
  walk fs cur p = Ok c -> c = fold_left step p cur.
Proof.
  induction p as [|seg p IH]; intros cur c; simpl.
  - by intros [= ->].
  - destruct (is_dir_at fs cur); [apply IH|].
    by destruct (exists_at fs cur).
Qed.

Lemma walk_keeps fs fs' p : forall cur c,
  keeps_dirs fs fs' -> walk fs cur p = Ok c -> walk fs' cur p = Ok c.
Proof.
  induction p as [|seg p IH]; intros cur c Hg; simpl; [done|].
  destruct (is_dir_at fs cur) eqn:Hd.
  - rewrite (is_dir_at_keeps _ _ _ Hg Hd). by apply IH.
  - by destruct (exists_at fs cur).
Qed.

Lemma walk_mono fs fs' p cur c :
  only_new_dirs fs fs' -> walk fs cur p = Ok c -> walk fs' cur p = Ok c.
Proof. intros H. by apply walk_keeps, only_new_dirs_keeps_dirs. Qed.

Lemma is_dir_keeps fs fs' p :
  keeps_dirs fs fs' -> is_dir fs p = true -> is_dir fs' p = true.
Proof.
  intros H. unfold is_dir. destruct (walk fs [] p) as [c|e] eqn:Hw; [|done].
  rewrite (walk_keeps _ _ _ _ _ H Hw). by apply is_dir_at_keeps.
Qed.

(** The last step of a lookup. *)
Lemma walk_snoc fs p seg : forall cur c,
  walk fs cur p = Ok c -> is_dir_at fs c = true ->
  walk fs cur (p ++ [seg]) = Ok (step c seg).
Proof.
  induction p as [|x p IH]; intros cur c; simpl.
  - intros [= ->] ->. done.
  - destruct (is_dir_at fs cur); [apply IH|].
    by destruct (exists_at fs cur).
Qed.

Lemma os_mkdir_grows p fs r fs' :
  os_mkdir p fs = (r, fs') -> only_new_dirs fs fs'.
Proof.
  unfold os_mkdir. destruct (walk fs [] p) as [c|e].
  - destruct (exists_at fs c) eqn:Hc; intros [= <- <-].
    + apply only_new_dirs_refl.
    + by apply only_new_dirs_insert.
  - intros [= <- <-]. apply only_new_dirs_refl.
Qed.

Lemma os_mkdir_ok_is_dir p fs u fs' :
  os_mkdir p fs = (Ok u, fs') -> is_dir fs' p = true.
Proof.
  unfold os_mkdir. destruct (walk fs [] p) as [c|e] eqn:Hw; [|done].
  destruct (exists_at fs c) eqn:Hc; [done|]. intros ?; simplify_eq.
  unfold is_dir.
  rewrite (walk_mono _ _ _ _ _ (only_new_dirs_insert _ _ Hc) Hw).
  destruct c as [|s c]; [done|]. simpl. by rewrite lookup_insert_eq.
Qed.

Lemma unless_is_dir_ok p e fs u fs' :
  unless_is_dir p e fs = (Ok u, fs') -> fs' = fs /\ is_dir fs p = true.
Proof.
  unfold unless_is_dir. destruct (is_OSError e); simpl; [|done].
  destruct (is_dir fs p); [|done]. intros ?; by simplify_eq.
Qed.

Lemma unless_is_dir_fs p e fs r fs' :
  unless_is_dir p e fs = (r, fs') -> fs' = fs.
Proof.
  unfold unless_is_dir. by destruct (is_OSError e && is_dir fs p)%bool; intros [= _ <-].
Qed.

Lemma mkdir_exist_ok_grows p fs r fs' :
  mkdir_exist_ok p fs = (r, fs') -> only_new_dirs fs fs'.
Proof.
  unfold mkdir_exist_ok. destruct (os_mkdir p fs) as [[u|e] fs1] eqn:Hm.
  - intros [= <- <-]. eapply os_mkdir_grows, Hm.
  - apply os_mkdir_grows in Hm.
    destruct e; try (intros Hu; apply unless_is_dir_fs in Hu; by subst).
    by intros [= <- <-].
Qed.

Lemma mkdir_parents_rev_grows rp : forall fs r fs',
  mkdir_parents_rev rp fs = (r, fs') -> only_new_dirs fs fs'.
Proof.
  induction rp as [|seg rp IH]; intros fs r fs'.
  all: cbn [mkdir_parents_rev].
  all: destruct (os_mkdir _ fs) as [[u|e] fs1] eqn:Hm; apply os_mkdir_grows in Hm.
  all: try (intros [= <- <-]; exact Hm).
  all: destruct e; try (intros Hu; apply unless_is_dir_fs in Hu; by subst).
  - by intros [= <- <-].
  - unfold mbind, M_bind.
    destruct (mkdir_parents_rev rp fs1) as [[u|e] fs2] eqn:Hp; apply IH in Hp.
    + intros Hk. apply mkdir_exist_ok_grows in Hk.
      eauto using only_new_dirs_trans.
    + intros [= <- <-]. eauto using only_new_dirs_trans.
Qed.

Lemma mkdir_exist_ok_is_dir p fs u fs' :
  mkdir_exist_ok p fs = (Ok u, fs') -> is_dir fs' p = true.
Proof.
  unfold mkdir_exist_ok. destruct (os_mkdir p fs) as [[u0|e] fs1] eqn:Hm.
  - intros ?; simplify_eq. eapply os_mkdir_ok_is_dir, Hm.
  - destruct e; try (intros Hu; apply unless_is_dir_ok in Hu as [-> Hd];
                     unfold os_mkdir in Hm; by repeat case_match; simplify_eq).
    done.
Qed.

Lemma mkdir_parents_rev_is_dir rp fs u fs' :
  mkdir_parents_rev rp fs = (Ok u, fs') -> is_dir fs' (rev rp) = true.
Proof.
  destruct rp as [|seg rp]; cbn [mkdir_parents_rev].
  all: destruct (os_mkdir _ fs) as [[u0|e] fs1] eqn:Hm;
    [intros ?; simplify_eq; eapply os_mkdir_ok_is_dir, Hm|].
  all: assert (fs1 = fs) as -> by
    (unfold os_mkdir in Hm; by repeat case_match; simplify_eq).
  all: destruct e; try (intros Hu; by apply unless_is_dir_ok in Hu as [-> Hd]).
  - done.
  - unfold mbind, M_bind.
    destruct (mkdir_parents_rev rp fs) as [[u1|e] fs2]; [|done].
    apply mkdir_exist_ok_is_dir.
Qed.

(** After [mkdir(parents=True, exist_ok=True)] the path is a directory. *)
Lemma mkdir_parents_is_dir p fs u fs' :
  mkdir_parents p fs = (Ok u, fs') -> is_dir fs' p = true.
Proof.
  unfold mkdir_parents. intros H. apply mkdir_parents_rev_is_dir in H.
  by rewrite rev_involutive in H.
Qed.

(** On a directory it changes nothing. *)
Lemma mkdir_parents_again p fs :
  is_dir fs p = true -> mkdir_parents p fs = (Ok tt, fs).
Proof.
  unfold mkdir_parents, is_dir. intros Hd.
  assert (os_mkdir (rev (rev p)) fs = (Raise FileExistsError, fs)) as Hm.
  { rewrite rev_involutive. unfold os_mkdir.
    destruct (walk fs [] p) as [c|e]; [|done].
    assert (exists_at fs c = true) as ->; [|done].
    destruct c as [|s c]; [done|]. simpl in *. by destruct (fs !! (s :: c)) as [[|]|]. }
  assert (unless_is_dir (rev (rev p)) FileExistsError fs = (Ok tt, fs)) as Hu.
  { unfold unless_is_dir, is_dir. rewrite rev_involutive. simpl.
    destruct (walk fs [] p) as [c|e]; [|done]. by rewrite Hd. }
  destruct (rev p) as [|seg rp]; cbn [mkdir_parents_rev]; by rewrite Hm.
Qed.

Lemma mkdir_parents_grows p fs r fs' :
  mkdir_parents p fs = (r, fs') -> only_new_dirs fs fs'.
Proof. apply mkdir_parents_rev_grows. Qed.

Lemma walk_raises fs p : forall cur e,
  walk fs cur p = Raise e -> is_OSError e = true.
Proof.
  induction p as [|seg p IH]; intros cur e; simpl; [done|].
  destruct (is_dir_at fs cur); [apply IH|].
  destruct (exists_at fs cur); by intros [= <-].
Qed.

Lemma read_text_fs p fs : snd (read_text p fs) = fs.
Proof. done. Qed.

End FileSystemFacts.

(** ** The patch gate *)

Section PatchGate.

Import Effects Patcher.

(** One round of the first loop of [apply_edits]. *)
Lemma check_patches_cons ws mtl p rest total tw fs :
  check_patches ws mtl (p :: rest) total tw fs =
  if negb (fst (_validate_schema p))
  then (Raise (ValueError (InvalidSchema (snd (_validate_schema p)))), fs)
  else
    let rel_path := to_str (parse (field "path" p)) in
    if negb (_is_safe_path ws rel_path)
    then (Raise (ValueError (UnsafePath rel_path)), fs)
    else
      match mkdir_parents (parent (target ws p)) fs with
      | (Raise e, fs1) => (Raise e, fs1)
      | (Ok _, fs1) =>
          match on_disk fs1 (target ws p) with
          | Raise e => (Raise e, fs1)
          | Ok old_text =>
              let new_text := normalize_newlines (field "new_text" p) in
              let total' := total + _count_changed_lines old_text new_text in
              if mtl <? total'
              then (Raise (ValueError (BudgetExceeded total' mtl)), fs1)
              else check_patches ws mtl rest total'
                     (tw ++ [(target ws p, new_text)]) fs1
          end
      end.
Proof.
  cbn [check_patches]. destruct (_validate_schema p) as [ok msg]; simpl fst; simpl snd.
  destruct ok; [|done]. cbn [negb].
  destruct (_is_safe_path ws _); [|done]. cbn [negb].
  unfold mbind, M_bind, target, on_disk.
  destruct (mkdir_parents _ fs) as [[u|e] fs1]; [|done].
  destruct (exists_ fs1 _).
  - match goal with |- context [read_text ?q fs1] =>
      pose proof (read_text_fs q fs1) as Hfs;
      destruct (read_text q fs1) as [[old|e] fs2] end;
      simpl in Hfs; subst fs2; simpl fst.
    + unfold raise. by destruct (_ <? _).
    + done.
  - unfold raise. simpl. by destruct (_ <? _).
Qed.

(** The first loop creates directories and nothing else. *)
Lemma check_patches_grows ws mtl patches : forall total tw fs r fs',
  check_patches ws mtl patches total tw fs = (r, fs') -> only_new_dirs fs fs'.
Proof.
  induction patches as [|p rest IH]; intros total tw fs r fs'.
  - intros [= <- <-]. apply only_new_dirs_refl.
  - rewrite check_patches_cons.
    destruct (negb _); [intros [= <- <-]; apply only_new_dirs_refl|].
    cbv zeta. destruct (negb _); [intros [= <- <-]; apply only_new_dirs_refl|].
    destruct (mkdir_parents _ fs) as [[u|e] fs1] eqn:Hm;
      apply mkdir_parents_grows in Hm; [|by intros [= <- <-]].
    destruct (on_disk fs1 _) as [old|e]; [|by intros [= <- <-]].
    destruct (_ <? _); [by intros [= <- <-]|].
    intros Hrest. apply IH in Hrest. eauto using only_new_dirs_trans.
Qed.

(** It raises when the schema check or the path check refuses one of the
    proposals. *)
Lemma check_patches_refused ws mtl patches : forall total tw fs,
  Exists (refused ws) patches ->
  exists e, fst (check_patches ws mtl patches total tw fs) = Raise e.
Proof.
  induction patches as [|p rest IH]; intros total tw fs Hex.
  - inversion Hex.
  - rewrite check_patches_cons.
    destruct (negb (fst (_validate_schema p))) eqn:Hs; [eauto|].
    cbv zeta. destruct (negb (_is_safe_path _ _)) eqn:Hp; [eauto|].
    destruct (mkdir_parents _ fs) as [[u|e] fs1]; [|eauto].
    destruct (on_disk fs1 _) as [old|e]; [|eauto].
    destruct (_ <? _); [eauto|].
    apply IH. inversion Hex as [? ? [H|H]|]; subst; [| |done].
    + rewrite H in Hs. done.
    + rewrite H in Hp. done.
Qed.

(** The writes raise operating-system errors only. *)
Lemma write_all_raises tw : forall fs e fs',
  write_all tw fs = (Raise e, fs') -> is_OSError e = true.
Proof.
  induction tw as [|[fpath content] tw IH]; intros fs e fs'; [done|].
  cbn [write_all]. unfold mbind, M_bind.
  destruct (write_text fpath content fs) as [[u|e0] fs1] eqn:Hw.
  - apply IH.
  - intros [= <- <-]. unfold write_text in Hw.
    destruct (walk fs [] fpath) as [c|e1] eqn:Hwalk.
    + destruct (is_dir_at fs c); by simplify_eq.
    + simplify_eq. eapply walk_raises, Hwalk.
Qed.

(** [apply_edits] on a list of proposals. *)
Lemma apply_edits_list ws items max_files mtl fs :
  apply_edits ws (VList items) max_files mtl fs =
  match items with
  | [] => (Ok tt, fs)
  | _ =>
      if max_files <? Z.of_nat (length items)
      then (Raise (ValueError (TooManyFiles (Z.of_nat (length items)) max_files)), fs)
      else
        match check_patches ws mtl items 0 [] fs with
        | (Raise e, fs1) => (Raise e, fs1)
        | (Ok to_write, fs1) => write_all to_write fs1
        end
  end.
Proof.
  unfold apply_edits. destruct items as [|p rest]; [done|].
  change (Py.or_ (VList (p :: rest)) (VList [])) with (VList (p :: rest)).
  cbn [len Py.iter].
  assert ((Z.of_nat (length (p :: rest)) =? 0) = false) as -> by (simpl; lia).
  destruct (_ <? _); [done|].
  unfold mbind, M_bind.
  by destruct (check_patches ws mtl (p :: rest) 0 [] fs) as [[tw|e] fs1].
Qed.

(** A [ValueError] comes from the checks: no file was written, whatever
    the reason of the rejection. *)
Lemma apply_edits_rejected ws items max_files mtl fs r fs' :
  apply_edits ws (VList items) max_files mtl fs = (Raise (ValueError r), fs') ->
  only_new_dirs fs fs'.
Proof.
  rewrite apply_edits_list. destruct items as [|p rest]; [done|].
  destruct (_ <? _); [intros [= _ <-]; apply only_new_dirs_refl|].
  destruct (check_patches ws mtl (p :: rest) 0 [] fs) as [[tw|e] fs1] eqn:Hc.
  - intros Hw. by apply write_all_raises in Hw.
  - intros [= _ <-]. eapply check_patches_grows, Hc.
Qed.

(** C5.  When the schema check or the path check refuses a proposal of
    the batch, or when [apply_edits] raises one of its [ValueError]s, the
    change budget among them, [apply_edits] raises and every regular
    file is as it was, the targets of the earlier, valid proposals
    included. *)
Theorem rejected_batch_writes_no_file ws items max_files mtl fs :
  Exists (refused ws) items
  \/ (exists r, fst (apply_edits ws (VList items) max_files mtl fs)
                = Raise (ValueError r)) ->
  (exists e, fst (apply_edits ws (VList items) max_files mtl fs) = Raise e)
  /\ same_files fs (snd (apply_edits ws (VList items) max_files mtl fs)).
Proof.
  intros [Hex|[r Hr]].
  - rewrite apply_edits_list.
    destruct items as [|p rest]; [inversion Hex|].
    destruct (_ <? _).
    + split; [by eexists|]. intros c. done.
    + destruct (check_patches_refused ws mtl (p :: rest) 0 [] fs Hex) as [e He].
      destruct (check_patches ws mtl (p :: rest) 0 [] fs) as [[tw|e'] fs1] eqn:Hc;
        simpl in He; [done|].
      split; [by exists e'|]. simpl.
      eapply only_new_dirs_same_files, check_patches_grows, Hc.
  - split; [by eexists|].
    destruct (apply_edits ws (VList items) max_files mtl fs) as [res fs'] eqn:Ha.
    simpl in *. subst res.
    eapply only_new_dirs_same_files, apply_edits_rejected, Ha.
Qed.

End PatchGate.

(** ** The transparency artifact *)

Section Artifact.

Import Effects Patcher.

Lemma startswith_app a x y :
  Str.startswith (a ++ x) (a ++ y) = Str.startswith x y.
Proof.
  induction a as [|c a IH]; simpl; [done|].
  by rewrite Ascii.eqb_refl.
Qed.

Lemma append_assoc (a b c : string) : (a ++ b) ++ c = a ++ (b ++ c).
Proof.
  induction a as [|x a IH]; [done|].
  change (String x ((a ++ b) ++ c) = String x (a ++ (b ++ c))). by rewrite IH.
Qed.

(** The text of a path under [ws]: a prefix that depends on [ws] only,
    then the segments below [ws]. *)
Lemma path_str_below ws :
  exists pre, forall l, l <> [] -> path_str (ws ++ l)%list = pre ++ Str.join "/" l.
Proof.
  destruct ws as [|w ws].
  - exists "/". done.
  - exists ("/" ++ Str.join "/" (w :: ws) ++ "/"). intros l Hl.
    unfold path_str. rewrite append_assoc. f_equal.
    revert w. induction ws as [|w' ws IH]; intros w.
    + destruct l as [|x l]; [done|].
      change (w ++ "/" ++ Str.join "/" (x :: l) = (w ++ "/") ++ Str.join "/" (x :: l)).
      by rewrite append_assoc.
    + change (Str.join "/" ((w :: w' :: ws) ++ l))
        with (w ++ "/" ++ Str.join "/" ((w' :: ws) ++ l)).
      rewrite IH.
      change (Str.join "/" (w :: w' :: ws)) with (w ++ "/" ++ Str.join "/" (w' :: ws)).
      by rewrite !append_assoc.
Qed.

Lemma resolve_app p q : resolve (p ++ q) = fold_left step q (resolve p).
Proof. unfold resolve. by rewrite fold_left_app. Qed.

(** A target that passes the prefix test is not the artifact. *)
Lemma safe_target_not_artifact ws fp :
  resolve ws = ws -> passes_prefix_test ws fp -> resolve fp <> edits_path ws.
Proof.
  intros Hws Hsafe Heq. unfold passes_prefix_test in Hsafe.
  rewrite Heq in Hsafe.
  change (truediv ws _WHITELIST_ROOT) with (ws ++ ["app"])%list in Hsafe.
  rewrite resolve_app, Hws in Hsafe.
  change (fold_left step ["app"] ws) with (ws ++ ["app"])%list in Hsafe.
  unfold edits_path in Hsafe.
  destruct (path_str_below ws) as [pre Hpre].
  rewrite !Hpre in Hsafe by done.
  rewrite startswith_app in Hsafe. done.
Qed.

(** What a path that passes [_is_safe_path] went through: the check of
    its first part, two calls of [resolve()] that returned, and the
    prefix test on what they returned. *)
Lemma is_safe_path_passed ws rel :
  _is_safe_path ws rel = true ->
  match parts (parse rel) with
  | [] => False
  | first :: _ =>
      first = _WHITELIST_ROOT
      /\ existsb has_nul (truediv ws rel) = false
      /\ Str.startswith (path_str (resolve (truediv ws rel)))
           (path_str (resolve (truediv ws _WHITELIST_ROOT))) = true
  end.
Proof.
  unfold _is_safe_path, is_safe_path_try.
  destruct (parts (parse rel)) as [|first rest]; [done|].
  destruct (String.eqb first _WHITELIST_ROOT) eqn:Hf; [|done].
  apply String.eqb_eq in Hf. cbn [negb]. unfold Path_resolve.
  destruct (existsb has_nul (truediv ws rel)); [done|].
  destruct (existsb has_nul (truediv ws _WHITELIST_ROOT)); [done|].
  done.
Qed.

Lemma is_safe_path_prefix_test ws rel :
  _is_safe_path ws rel = true -> passes_prefix_test ws (truediv ws rel).
Proof.
  intros H%is_safe_path_passed. unfold passes_prefix_test.
  destruct (parts (parse rel)) as [|first rest]; [done|].
  by destruct H as (_ & _ & H).
Qed.

(** The targets the first loop collects pass the prefix test. *)
Lemma check_patches_targets ws mtl patches : forall total tw fs tw' fs',
  Forall (fun x => passes_prefix_test ws (fst x)) tw ->
  check_patches ws mtl patches total tw fs = (Ok tw', fs') ->
  Forall (fun x => passes_prefix_test ws (fst x)) tw'.
Proof.
  induction patches as [|p rest IH]; intros total tw fs tw' fs' Htw.
  - by intros [= <- <-].
  - rewrite check_patches_cons.
    destruct (negb _); [done|]. cbv zeta.
    destruct (negb _) eqn:Hsafe; [done|].
    destruct (mkdir_parents _ fs) as [[u|e] fs1]; [|done].
    destruct (on_disk fs1 _) as [old|e]; [|done].
    destruct (_ <? _); [done|].
    apply IH. apply Forall_app. split; [done|].
    constructor; [|done]. simpl.
    apply is_safe_path_prefix_test. by destruct (_is_safe_path _ _).
Qed.

(** The writes touch the resolved targets only. *)
Lemma write_all_frame c0 tw : forall fs r fs',
  Forall (fun x => resolve (fst x) <> c0) tw ->
  write_all tw fs = (r, fs') -> fs' !! c0 = fs !! c0.
Proof.
  induction tw as [|[fpath content] tw IH]; intros fs r fs' Htw.
  - by intros [= _ <-].
  - cbn [write_all]. unfold mbind, M_bind.
    inversion Htw as [|? ? Hne Htw']; subst. simpl in Hne.
    destruct (write_text fpath content fs) as [[u|e] fs1] eqn:Hw.
    + intros Hrest. rewrite (IH _ _ _ Htw' Hrest).
      unfold write_text in Hw. destruct (walk fs [] fpath) as [c|e] eqn:Hwalk; [|done].
      apply walk_resolve in Hwalk.
      destruct (is_dir_at fs c); [done|]. simplify_eq.
      by rewrite lookup_insert_ne.
    + intros [= _ <-]. unfold write_text in Hw.
      destruct (walk fs [] fpath) as [c|e'] eqn:Hwalk; [|by injection Hw as _ <-].
      destruct (is_dir_at fs c); [by injection Hw as _ <-|done].
Qed.

(** [apply_edits] leaves the artifact as it finds it. *)
Lemma apply_edits_keeps_artifact ws items max_files mtl fs r fs' :
  resolve ws = ws ->
  apply_edits ws (VList items) max_files mtl fs = (r, fs') ->
  file_at fs' (edits_path ws) = file_at fs (edits_path ws).
Proof.
  intros Hws. rewrite apply_edits_list. destruct items as [|p rest]; [by intros [= _ <-]|].
  destruct (_ <? _); [by intros [= _ <-]|].
  destruct (check_patches ws mtl (p :: rest) 0 [] fs) as [[tw|e] fs1] eqn:Hc.
  - intros Hw.
    pose proof (check_patches_grows _ _ _ _ _ _ _ _ Hc) as Hg.
    apply only_new_dirs_same_files in Hg. rewrite <- (Hg (edits_path ws)).
    unfold file_at. erewrite write_all_frame; [done| |exact Hw].
    eapply Forall_impl; [eapply check_patches_targets, Hc; constructor|].
    intros [fp content] Hsafe. simpl. by apply safe_target_not_artifact.
  - intros [= _ <-].
    eapply only_new_dirs_same_files, check_patches_grows, Hc.
Qed.

Context (E : Externals).

(** When [write_edits_json] returns, the artifact holds the serialized
    batch. *)
Lemma write_edits_json_ok ws patches fs fs1 :
  resolve ws = ws ->
  write_edits_json E ws patches fs = (Ok tt, fs1) ->
  exists pl, payload E patches = Ok pl
             /\ file_at fs1 (edits_path ws) = Some (Json.dumps (VList pl)).
Proof.
  intros Hws. unfold write_edits_json. unfold mbind, M_bind.
  destruct (mkdir_parents _ fs) as [[u|e] fs0]; [|done].
  destruct (payload E patches) as [pl|e]; [|done].
  intros Hw. exists pl. split; [done|].
  unfold write_text in Hw.
  destruct (walk fs0 [] _) as [c|e] eqn:Hwalk; [|done].
  apply walk_resolve in Hwalk. fold (resolve ((ws ++ [".selfevolve"]) ++ ["edits.json"])) in Hwalk.
  rewrite !resolve_app, Hws in Hwalk.
  change (c = ((ws ++ [".selfevolve"]) ++ ["edits.json"])%list) in Hwalk.
  rewrite <- app_assoc in Hwalk. change (c = edits_path ws) in Hwalk. subst c.
  destruct (is_dir_at fs0 _); [done|]. simplify_eq.
  unfold file_at. by rewrite lookup_insert_eq.
Qed.

(** A directory can be made where its parent is a directory and its
    name is free or names a directory; nothing else changes. *)
Lemma mkdir_parents_in_dir fs p seg :
  is_dir fs p = true ->
  is_dir fs (p ++ [seg]) = true \/ exists_ fs (p ++ [seg]) = false ->
  exists fs0,
    mkdir_parents (p ++ [seg]) fs = (Ok tt, fs0)
    /\ forall c, c <> step (resolve p) seg -> fs0 !! c = fs !! c.
Proof.
  intros Hp [Hd|Hx].
  - exists fs. by rewrite mkdir_parents_again.
  - unfold is_dir in Hp. destruct (walk fs [] p) as [c|e] eqn:Hw; [|done].
    pose proof (walk_resolve _ _ _ _ Hw) as Hc. fold (resolve p) in Hc. subst c.
    pose proof (walk_snoc _ _ seg _ _ Hw Hp) as Hw'.
    unfold exists_ in Hx. rewrite Hw' in Hx.
    exists (<[step (resolve p) seg := Dir]> fs). split.
    + unfold mkdir_parents. rewrite rev_unit. cbn [mkdir_parents_rev].
      change (rev (seg :: rev p)) with (rev (rev p) ++ [seg])%list.
      rewrite rev_involutive. unfold os_mkdir. by rewrite Hw', Hx.
    + intros c Hne. by rewrite lookup_insert_ne.
Qed.

(** [write_edits_json] returns for a list of dictionaries, in a
    workspace directory where [.selfevolve] is a directory or can be
    made and [edits.json] is no directory. *)
Lemma write_edits_json_returns ws items fs :
  resolve ws = ws ->
  forallb is_dict items = true ->
  is_dir fs ws = true ->
  is_dir fs (artifact_dir ws) = true \/ exists_ fs (artifact_dir ws) = false ->
  is_dir_at fs (edits_path ws) = false ->
  exists pl fs1,
    payload E (VList items) = Ok pl
    /\ write_edits_json E ws (VList items) fs = (Ok tt, fs1).
Proof.
  intros Hws Hitems Hdir Hse Hnd.
  assert (exists pl, payload E (VList items) = Ok pl) as [pl Hpl].
  { unfold payload, Py.or_.
    assert (Py.iter (if Py.truthy (VList items) then VList items else VList [])
            = Ok items) as -> by by destruct items.
    clear -Hitems. induction items as [|p rest IH]; [by exists []|].
    cbn [forallb] in Hitems. apply andb_prop in Hitems as [Hp Hrest].
    destruct (IH Hrest) as [xs Hxs]. destruct p; try done.
    cbn [edit_entries edit_entry]. rewrite Hxs. eauto. }
  destruct (mkdir_parents_in_dir fs ws ".selfevolve" Hdir Hse) as (fs0 & Hmk & Hsame).
  rewrite Hws in Hsame. change (step ws ".selfevolve") with (artifact_dir ws) in Hsame.
  exists pl, (<[edits_path ws := File (Json.dumps (VList pl))]> fs0). split; [done|].
  unfold write_edits_json, mbind, M_bind. cbv zeta. rewrite Hmk, Hpl.
  pose proof (mkdir_parents_is_dir _ _ _ _ Hmk) as Hd0. unfold is_dir in Hd0.
  change (ws ++ [".selfevolve"])%list with (artifact_dir ws) in *.
  destruct (walk fs0 [] (artifact_dir ws)) as [c|e] eqn:Hw; [|done].
  pose proof (walk_resolve _ _ _ _ Hw) as Hc. fold (resolve (artifact_dir ws)) in Hc.
  unfold artifact_dir in Hc. rewrite resolve_app, Hws in Hc.
  change (c = artifact_dir ws) in Hc. subst c.
  pose proof (walk_snoc _ _ "edits.json" _ _ Hw Hd0) as Hw'.
  change (step (artifact_dir ws) "edits.json")
    with ((ws ++ [".selfevolve"]) ++ ["edits.json"])%list in Hw'.
  rewrite <- app_assoc in Hw'. change (ws ++ [".selfevolve"] ++ ["edits.json"])%list
    with (edits_path ws) in Hw'.
  unfold write_text. rewrite Hw'.
  assert (is_dir_at fs0 (edits_path ws) = false) as ->; [|done].
  unfold is_dir_at in *. rewrite Hsame; [done|].
  unfold edits_path, artifact_dir. intros Heq. apply (f_equal (@length _)) in Heq.
  rewrite !length_app in Heq. simpl in Heq. lia.
Qed.

(** A batch that is not empty and is no list of dictionaries: the loop
    of [write_edits_json] raises. *)
Lemma payload_raises patches :
  Py.truthy patches = true -> list_of_dicts patches = false ->
  exists e, payload E patches = Raise e.
Proof.
  intros Ht Hd. unfold payload, Py.or_. rewrite Ht.
  destruct patches as [| b | z | s | l | d]; try (by eexists).
  - destruct s as [|c s]; [done|]. by eexists.
  - cbn [Py.iter]. cbn [list_of_dicts] in Hd. clear Ht.
    induction l as [|p rest IH]; [done|]. cbn [forallb] in Hd.
    destruct p; try (by eexists). cbn [is_dict andb] in Hd.
    destruct (IH Hd) as [e He]. exists e. cbn [edit_entries edit_entry]. by rewrite He.
  - destruct d as [|[k v] d]; [done|]. by eexists.
Qed.

(** C4 (amended).  A step with an empty batch writes nothing, so that an
    artifact of an earlier step stays as it is.  A step with a batch
    that is a list of dictionaries and not empty writes the artifact
    first, in a workspace directory where [.selfevolve] is a directory
    or can be made and [edits.json] is no directory:
    [write_edits_json] returns, the artifact holds the serialized
    batch, [apply_edits] starts from that file system, and the artifact
    still holds the serialized batch after the step, whether
    [apply_edits] returned or raised.  A step with any other batch sets
    the error flag and creates, changes or removes no file: the loop of
    [write_edits_json] raises before the artifact is written. *)
Theorem artifact_written_unless_batch_empty st ws fs :
  Cli.repo st = Ok ws -> resolve ws = ws ->
  (Py.truthy (proposed st) = false ->
   Cli.node_apply_patch E st fs = (Ok (Py.set "error_flag" (VBool false) st), fs))
  /\ (Py.truthy (proposed st) = true ->
      list_of_dicts (proposed st) = true ->
      is_dir fs ws = true ->
      is_dir fs (artifact_dir ws) = true \/ exists_ fs (artifact_dir ws) = false ->
      is_dir_at fs (edits_path ws) = false ->
      exists pl fs1 r st' fs',
        payload E (proposed st) = Ok pl
        /\ write_edits_json E ws (proposed st) fs = (Ok tt, fs1)
        /\ file_at fs1 (edits_path ws) = Some (Json.dumps (VList pl))
        /\ apply_edits ws (proposed st) default_max_files
             default_max_total_lines fs1 = (r, fs')
        /\ Cli.node_apply_patch E st fs = (Ok st', fs')
        /\ Graph.flag "error_flag" st' = negb (is_ok r)
        /\ file_at fs' (edits_path ws) = Some (Json.dumps (VList pl)))
  /\ (Py.truthy (proposed st) = true ->
      list_of_dicts (proposed st) = false ->
      exists st' fs',
        Cli.node_apply_patch E st fs = (Ok st', fs')
        /\ Graph.flag "error_flag" st' = true
        /\ same_files fs fs').
Proof.
  intros Hrepo Hws. unfold Cli.node_apply_patch. rewrite Hrepo.
  fold (proposed st). split; [|split]; intros Ht; rewrite Ht; [done| |].
  - intros Hd Hdir Hse Hnd.
    destruct (proposed st) as [| | | |items|] eqn:Hitems; try done.
    destruct (write_edits_json_returns ws items fs Hws Hd Hdir Hse Hnd)
      as (pl & fs1 & Hpl & Hw).
    destruct (write_edits_json_ok _ _ _ _ Hws Hw) as (pl' & Hpl' & Hfile).
    rewrite Hpl in Hpl'. injection Hpl' as <-.
    unfold mbind at 1, M_bind at 1. rewrite Hw.
    destruct (apply_edits ws (VList items) default_max_files
                default_max_total_lines fs1) as [r fs'] eqn:Ha.
    assert (file_at fs' (edits_path ws) = Some (Json.dumps (VList pl))) as Hkept.
    { by rewrite (apply_edits_keeps_artifact _ _ _ _ _ _ _ Hws Ha). }
    exists pl, fs1, r. destruct r as [u|e]; eexists _, fs'.
    all: repeat split; try done.
    + by rewrite flag_set_eq.
    + by rewrite flag_set_ne, flag_set_eq.
  - intros Hd. destruct (payload_raises _ Ht Hd) as [e He].
    unfold mbind at 1, M_bind at 1. unfold write_edits_json, mbind, M_bind.
    destruct (mkdir_parents _ fs) as [[u|e'] fs0] eqn:Hmk.
    + rewrite He. unfold raise. eexists _, fs0. split; [done|].
      split; [by rewrite flag_set_ne, flag_set_eq|].
      eapply only_new_dirs_same_files, mkdir_parents_grows, Hmk.
    + eexists _, fs0. split; [done|].
      split; [by rewrite flag_set_ne, flag_set_eq|].
      eapply only_new_dirs_same_files, mkdir_parents_grows, Hmk.
Qed.

End Artifact.

(** ** Directories of a rejected batch, and two proposals for one path *)

Section Targets.

Import Effects Patcher.

(** A path that passes [_is_safe_path] is relative and starts with
    [app]: its target lies, before [..] is resolved, below the writable
    root. *)
Lemma safe_target_below_app ws rel :
  _is_safe_path ws rel = true ->
  exists rest, truediv ws rel = (ws ++ "app" :: rest)%list.
Proof.
  intros H%is_safe_path_passed. revert H. unfold truediv, parts.
  destruct (String.eqb (anchor (parse rel)) "") eqn:Ha.
  - destruct (segs (parse rel)) as [|first rest]; [done|].
    intros [-> _]. eauto.
  - intros [Hf _]. unfold parse in Hf. simpl in Hf.
    by repeat case_match.
Qed.

Lemma count_step_nonneg diff : forall a r,
  0 <= a -> 0 <= r ->
  0 <= fst (fold_left count_step diff (a, r))
  /\ 0 <= snd (fold_left count_step diff (a, r)).
Proof.
  induction diff as [|line diff IH]; intros a r Ha Hr; simpl; [done|].
  destruct (is_added line); [apply IH; lia|].
  destruct (is_removed line); apply IH; lia.
Qed.

Lemma count_changed_lines_nonneg old_text new_text :
  0 <= _count_changed_lines old_text new_text.
Proof.
  unfold _count_changed_lines.
  pose proof (count_step_nonneg
                (Difflib.unified_diff (Str.splitlines old_text) (Str.splitlines new_text))
                0 0 ltac:(done) ltac:(done)) as [H1 H2].
  destruct (fold_left count_step _ (0, 0)) as [added removed]. simpl in *. lia.
Qed.

(** Where the text on disk can be read, or there is none, the write goes
    through. *)
Lemma write_text_ok fs fp content old :
  fp <> [] -> is_dir fs (parent fp) = true -> on_disk fs fp = Ok old ->
  walk fs [] fp = Ok (resolve fp)
  /\ is_dir_at fs (resolve fp) = false
  /\ write_text fp content fs = (Ok tt, <[resolve fp := File content]> fs).
Proof.
  intros Hne Hdir Hold.
  assert (exists c, walk fs [] fp = Ok c) as [c Hw].
  { rewrite (app_removelast_last "" Hne). unfold is_dir, parent in Hdir.
    destruct (walk fs [] (removelast fp)) as [cp|e] eqn:Hp; [|done].
    rewrite (walk_snoc _ _ _ _ _ Hp Hdir). eauto. }
  pose proof (walk_resolve _ _ _ _ Hw) as Hc. fold (resolve fp) in Hc. subst c.
  assert (is_dir_at fs (resolve fp) = false) as Hnd.
  { unfold on_disk, exists_, read_text, reads in Hold. rewrite Hw in Hold. simpl in Hold.
    destruct (is_dir_at fs (resolve fp)) eqn:Hd; [|done].
    destruct (resolve fp) as [|s c]; [done|]. simpl in *.
    by destruct (fs !! (s :: c)) as [[|]|]. }
  repeat split; [done..|]. unfold write_text. by rewrite Hw, Hnd.
Qed.

(** What was written is what is on disk. *)
Lemma on_disk_written fs fp content :
  walk fs [] fp = Ok (resolve fp) -> is_dir_at fs (resolve fp) = false ->
  keeps_dirs fs (<[resolve fp := File content]> fs)
  /\ on_disk (<[resolve fp := File content]> fs) fp = Ok content.
Proof.
  intros Hw Hnd.
  assert (keeps_dirs fs (<[resolve fp := File content]> fs)) as Hk.
  { intros c Hc. destruct (decide (resolve fp = c)) as [Heq|Hne].
    - rewrite Heq in Hnd. destruct c; [done|]. simpl in Hnd. by rewrite Hc in Hnd.
    - by rewrite lookup_insert_ne. }
  split; [done|].
  unfold on_disk, exists_, read_text, reads.
  rewrite (walk_keeps _ _ _ _ _ Hk Hw). simpl.
  destruct (resolve fp) as [|s c] eqn:Hr; [done|]. simpl.
  by rewrite lookup_insert_eq.
Qed.


(** C10.  Two proposals of one batch may name the same path.  When both
    pass the checks, both are compared with the text that is on disk
    when the batch arrives, [old]: the total the budget sees is the sum
    of the two counts against [old].  Within the budget both are written
    in the order of the batch, so that the file ends with the text of the
    second; over it the batch is rejected with that total. *)
Theorem same_path_twice ws p1 p2 max_files mtl fs fs1 old :
  fst (_validate_schema p1) = true ->
  fst (_validate_schema p2) = true ->
  field "path" p1 = field "path" p2 ->
  _is_safe_path ws (to_str (parse (field "path" p1))) = true ->
  2 <= max_files ->
  mkdir_parents (parent (target ws p1)) fs = (Ok tt, fs1) ->
  on_disk fs1 (target ws p1) = Ok old ->
  let new1 := normalize_newlines (field "new_text" p1) in
  let new2 := normalize_newlines (field "new_text" p2) in
  let changed1 := _count_changed_lines old new1 in
  let changed2 := _count_changed_lines old new2 in
  changed1 <= mtl ->
  apply_edits ws (VList [p1; p2]) max_files mtl fs =
  if mtl <? changed1 + changed2
  then (Raise (ValueError (BudgetExceeded (changed1 + changed2) mtl)), fs1)
  else (Ok tt, <[resolve (target ws p1) := File new2]>
                 (<[resolve (target ws p1) := File new1]> fs1)).
Proof.
  intros Hs1 Hs2 Hpath Hsafe Hmax Hmk Hold new1 new2 changed1 changed2 Hc1.
  assert (target ws p2 = target ws p1) as Ht by (unfold target; by rewrite Hpath).
  rewrite apply_edits_list.
  change (Z.of_nat (length [p1; p2])) with 2.
  assert ((max_files <? 2) = false) as -> by lia.
  rewrite check_patches_cons. cbv zeta.
  rewrite Hs1, Hsafe, Hmk. simpl negb. cbv iota.
  rewrite Hold. fold new1 changed1.
  assert ((mtl <? 0 + changed1) = false) as -> by lia.
  pose proof (mkdir_parents_is_dir _ _ _ _ Hmk) as Hdir.
  rewrite check_patches_cons. cbv zeta.
  rewrite Hs2, <- Hpath, Hsafe, Ht. simpl negb. cbv iota.
  rewrite (mkdir_parents_again _ _ Hdir), Hold. fold new2 changed2.
  replace (0 + changed1 + changed2) with (changed1 + changed2) by lia.
  destruct (mtl <? changed1 + changed2); [done|].
  cbn [check_patches app write_all]. unfold mret, M_ret, mbind, M_bind.
  destruct (safe_target_below_app _ _ Hsafe) as [rest Hrest].
  assert (target ws p1 <> []) as Hne.
  { unfold target. rewrite Hrest. by destruct ws. }
  cbn [write_all]. unfold mbind, M_bind, mret, M_ret.
  destruct (write_text_ok fs1 (target ws p1) new1 old Hne Hdir Hold) as (Hw & Hnd & ->).
  destruct (on_disk_written fs1 (target ws p1) new1 Hw Hnd) as [Hk Hold'].
  destruct (write_text_ok _ (target ws p1) new2 new1 Hne
              (is_dir_keeps _ _ _ Hk Hdir) Hold') as (_ & _ & ->).
  done.
Qed.

End Targets.

(** ** The memory store *)

Section Memory.

Import Reflect.

Context (E : Externals).

(** A memory file that is missing, that cannot be read or that does not
    parse gives the empty record, and so does an empty file when the
    parser reads ["{}"] as the empty object; a parsed object gets the two
    lists it lacks. *)
Lemma load_memory_recovers mem_path fs :
  (exists_ fs mem_path = false \/ (exists e, fst (read_text mem_path fs) = Raise e)
   \/ (exists raw, fst (read_text mem_path fs) = Ok raw
                   /\ json_loads E (if String.eqb raw "" then "{}" else raw) = None)
   \/ (fst (read_text mem_path fs) = Ok "" /\ json_loads E "{}" = Some (VDict [])) ->
   load_memory E mem_path fs =
   (Ok (VDict [("heuristics", VList []); ("fix_snippets", VList [])]), fs))
  /\ (forall raw d,
        exists_ fs mem_path = true ->
        fst (read_text mem_path fs) = Ok raw ->
        json_loads E (if String.eqb raw "" then "{}" else raw) = Some (VDict d) ->
        load_memory E mem_path fs =
        (Ok (VDict (Py.setdefault "fix_snippets" (VList [])
                      (Py.setdefault "heuristics" (VList []) d))), fs)).
Proof.
  unfold load_memory, reads. split.
  - intros [->|[[e He]|[(raw & Hr & Hj)|[Hr Hj]]]]; [done|..].
    + rewrite He. by destruct (exists_ fs mem_path).
    + rewrite Hr, Hj. by destruct (exists_ fs mem_path).
    + rewrite Hr. simpl. rewrite Hj. by destruct (exists_ fs mem_path).
  - intros raw d -> -> ->. done.
Qed.

(** C8 (the code at the failing input, for every parser).  When the
    memory file holds JSON that parses to something other than an
    object, such as an array, [load_memory] raises [AttributeError]:
    [setdefault] is called after the [try] block, on the parsed value. *)
Theorem load_memory_raises_on_parsed_non_object mem_path fs raw v :
  exists_ fs mem_path = true ->
  fst (read_text mem_path fs) = Ok raw ->
  raw <> "" ->
  json_loads E raw = Some v ->
  (forall d, v <> VDict d) ->
  load_memory E mem_path fs = (Raise AttributeError, fs).
Proof.
  intros Hex Hread Hraw Hparse Hv. unfold load_memory, reads.
  rewrite Hex, Hread.
  assert (String.eqb raw "" = false) as -> by by apply String.eqb_neq.
  rewrite Hparse. destruct v; try done. by destruct (Hv d).
Qed.

(** C3 (the code at the failing input).  [_dedupe] builds its key from
    the entries ["tag"], ["regex"] and ["advice"]; a stored rule keeps
    its pattern under ["pattern"], so that two rules with the same tag
    and advice are one rule for [_dedupe] whatever their patterns: the
    second is dropped, by [_dedupe] and by [reflect_update] on a log in
    which no rule is found. *)
Theorem dedupe_drops_rule_with_other_pattern tag pattern1 pattern2 advice log :
  _dedupe [rule tag pattern1 advice; rule tag pattern2 advice]
  = Ok [rule tag pattern1 advice]
  /\ reflect_update (Fixture.externals Fixture.failing_runner)
       (VDict [("heuristics",
                VList [rule tag pattern1 advice; rule tag pattern2 advice])])
       (VStr log)
     = Ok (VDict [("heuristics", VList [rule tag pattern1 advice]);
                  ("fix_snippets", VList [])]).
Proof.
  assert (_dedupe [rule tag pattern1 advice; rule tag pattern2 advice]
          = Ok [rule tag pattern1 advice]) as Hd.
  { unfold _dedupe, rule. simpl. by rewrite !String.eqb_refl. }
  split; [done|]. unfold reflect_update.
  simpl Py.setdefault. unfold Py.or_. simpl Py.truthy.
  destruct log as [|c log]; simpl negb; cbv iota.
  all: change (mined _ _) with (@nil Val);
    change (name_error_rule _ _) with (@nil Val).
  all: simpl Py.iter; cbv iota; simpl app; by rewrite Hd.
Qed.

End Memory.

(** ** The code on concrete batches and runs *)

Section Examples.

Import Effects Patcher Fixture.

(** C6 (the code at the failing input).  [_count_changed_lines] leaves
    out the lines of the diff that start with [+++] or [---]: the two
    header lines, and every added line whose text starts with [++] and
    every removed line whose text starts with [--].  A new file of one
    line [++x] counts zero changed lines, and a new file of 301 such
    lines passes the budget of 300 and is written. *)
Theorem added_lines_that_start_with_plus_plus_are_not_counted :
  Difflib.unified_diff [] ["++x"] = ["--- "; "+++ "; "@@ -0,0 +1 @@"; "+++x"]
  /\ _count_changed_lines "" "++x" = 0
  /\ _count_changed_lines "" (lines 301 "++x") = 0
  /\ fst (apply_edits workspace (VList batch_plus_plus) 3 300 fs_app) = Ok tt
  /\ file_at (snd (apply_edits workspace (VList batch_plus_plus) 3 300 fs_app))
       ["ws"; "app"; "counter.txt"] = Some (lines 301 "++x").
Proof. repeat split; vm_compute; reflexivity. Qed.

(** C7 (the code at the failing input).  [_is_safe_path] compares the
    text of the resolved path with the text of the resolved root:
    [app/../app2/x.py] starts with [app], resolves to [app2/x.py] next
    to the writable root, and passes because ["/ws/app2/x.py"] starts
    with ["/ws/app"].  [apply_edits] creates [app2] and writes the file
    there. *)
Theorem sibling_of_app_passes_the_path_check :
  resolve (truediv workspace "app/../app2/x.py") = ["ws"; "app2"; "x.py"]
  /\ _is_safe_path workspace "app/../app2/x.py" = true
  /\ fs_app !! ["ws"; "app2"] = None
  /\ fst (apply_edits workspace (VList batch_sibling) 3 300 fs_app) = Ok tt
  /\ snd (apply_edits workspace (VList batch_sibling) 3 300 fs_app)
       !! ["ws"; "app2"] = Some Dir
  /\ file_at (snd (apply_edits workspace (VList batch_sibling) 3 300 fs_app))
       ["ws"; "app2"; "x.py"] = Some "x = 1
".
Proof. repeat split; vm_compute; reflexivity. Qed.

Lemma failing_runner_always_fails : Loop.always_fails (externals failing_runner).
Proof. intros ws fs rc out err fs' H. injection H as <- _ _ _. discriminate. Defined.

Lemma passing_runner_always_passes : Loop.always_passes (externals passing_runner).
Proof. intros ws fs rc out err fs' H. injection H as <- _ _ _. reflexivity. Defined.

(** C2, as stated, fails: with [max_iters = 3] and a runner that always
    fails the run makes two [Reflect] steps, not three, and halts with
    [iter = 2]. *)
Lemma always_failing_run_stops_at_two :
  Loop.always_fails (externals failing_runner)
  /\ exists visited final,
       fst (Cli.app (externals failing_runner) 12 (Cli.initial "/ws" 3) fs_app)
       = Ok (Some (visited, final))
       /\ Loop.visits Graph.Reflect visited = 2%nat
       /\ Loop.visits Graph.Reflect visited <> 3%nat
       /\ Py.get "iter" final = Some (VInt 2)
       /\ Py.get "iter" final <> Some (VInt 3)
       /\ Py.get "tests_passed" final = Some (VBool false).
Proof.
  split; [exact failing_runner_always_fails|].
  eexists _, _. split; [vm_compute; reflexivity|].
  repeat split; vm_compute; congruence.
Qed.

Lemma always_failing_run_witness :
  Loop.always_fails (externals failing_runner) /\ (12 <= 12)%nat
  /\ Loop.stops_failing
       (fst (Cli.app (externals failing_runner) 12 (Cli.initial "/ws" 3) fs_app)).
Proof.
  split; [exact failing_runner_always_fails|]. split; [exact (le_n 12)|].
  exact (proj1 (always_failing_run_reflects_twice (externals failing_runner)
                  "/ws" fs_app 12 failing_runner_always_fails (le_n 12))).
Defined.

Lemma passing_run_witness :
  Loop.always_passes (externals passing_runner) /\ (12 <= 12)%nat
  /\ Loop.keeps_going
       (fst (Cli.app (externals passing_runner) 12 (Cli.initial "/ws" 3) fs_app)).
Proof.
  split; [exact passing_runner_always_passes|]. split; [exact (le_n 12)|].
  exact (passing_tests_do_not_stop_the_loop (externals passing_runner)
           "/ws" fs_app 12 passing_runner_always_passes (le_n 12)).
Defined.

(** C4, as stated, fails: a step with an empty batch leaves the artifact
    of an earlier step in place; the serialized empty batch would be
    ["[]"].  So does a step whose batch has an item that is no
    dictionary: [write_edits_json] raises [AttributeError] before it
    writes.  Where [.selfevolve] is a regular file the directory cannot
    be made, and the step leaves no artifact. *)
Lemma empty_batch_keeps_stale_artifact :
  (proposed state_empty_batch = VList []
   /\ payload (externals failing_runner) (VList []) = Ok []
   /\ Json.dumps (VList []) = "[]"
   /\ file_at fs_stale (edits_path workspace) = Some "stale"
   /\ snd (Cli.node_apply_patch (externals failing_runner) state_empty_batch fs_stale)
      = fs_stale
   /\ file_at (snd (Cli.node_apply_patch (externals failing_runner)
                      state_empty_batch fs_stale)) (edits_path workspace)
      <> Some (Json.dumps (VList [])))
  /\ (list_of_dicts (proposed Doubles.state_stray_item) = false
      /\ write_edits_json (externals failing_runner) workspace
           (proposed Doubles.state_stray_item) fs_stale
         = (Raise AttributeError, fs_stale)
      /\ snd (Cli.node_apply_patch (externals failing_runner)
                Doubles.state_stray_item fs_stale) = fs_stale
      /\ file_at (snd (Cli.node_apply_patch (externals failing_runner)
                         Doubles.state_stray_item fs_stale)) (edits_path workspace)
         = Some "stale")
  /\ (list_of_dicts (proposed state_one_edit) = true
      /\ exists_ Doubles.fs_blocked (artifact_dir workspace) = true
      /\ is_dir Doubles.fs_blocked (artifact_dir workspace) = false
      /\ write_edits_json (externals failing_runner) workspace
           (proposed state_one_edit) Doubles.fs_blocked
         = (Raise FileExistsError, Doubles.fs_blocked)
      /\ file_at (snd (Cli.node_apply_patch (externals failing_runner)
                         state_one_edit Doubles.fs_blocked)) (edits_path workspace)
         = None).
Proof. repeat split; vm_compute; congruence. Qed.

Lemma artifact_witness :
  Cli.repo state_one_edit = Ok workspace /\ resolve workspace = workspace
  /\ Py.truthy (proposed state_one_edit) = true
  /\ list_of_dicts (proposed state_one_edit) = true
  /\ is_dir fs_stale workspace = true
  /\ is_dir fs_stale (artifact_dir workspace) = true
  /\ is_dir_at fs_stale (edits_path workspace) = false
  /\ file_at (snd (Cli.node_apply_patch (externals failing_runner)
                     state_one_edit fs_stale)) (edits_path workspace)
     = Some (Json.dumps (VList [VDict [("path", VStr "app/main.py");
                                       ("newText", VStr "def inc(x):
    return x + 1
")]])).
Proof.
  do 7 (split; [reflexivity|]).
  destruct (proj1 (proj2 (artifact_written_unless_batch_empty
                            (externals failing_runner)
                            state_one_edit workspace fs_stale eq_refl eq_refl))
              eq_refl eq_refl eq_refl (or_introl eq_refl) eq_refl)
    as (pl & fs1 & r & st' & fs' & Hpl & _ & _ & _ & Hnode & _ & Hfile).
  rewrite Hnode. simpl snd. rewrite Hfile.
  vm_compute in Hpl. injection Hpl as <-. reflexivity.
Defined.

Lemma rejected_batch_witness :
  Exists (refused workspace) batch_unsafe
  /\ (exists e, fst (apply_edits workspace (VList batch_unsafe) 3 300 fs_app) = Raise e)
  /\ same_files fs_app (snd (apply_edits workspace (VList batch_unsafe) 3 300 fs_app)).
Proof.
  assert (Exists (refused workspace) batch_unsafe) as H.
  { apply Exists_cons_tl, Exists_cons_hd. right. vm_compute. reflexivity. }
  split; [exact H|].
  exact (rejected_batch_writes_no_file workspace batch_unsafe 3 300 fs_app (or_introl H)).
Defined.

Lemma array_memory_witness :
  exists_ fs_array_memory (Cli.memory_path workspace) = true
  /\ Reflect.load_memory (externals failing_runner) (Cli.memory_path workspace)
       fs_array_memory = (Raise AttributeError, fs_array_memory).
Proof.
  split; [vm_compute; reflexivity|].
  apply (load_memory_raises_on_parsed_non_object (externals failing_runner)
           (Cli.memory_path workspace) fs_array_memory "[]" (VList [])).
  - vm_compute; reflexivity.
  - vm_compute; reflexivity.
  - discriminate.
  - reflexivity.
  - discriminate.
Defined.


Lemma same_path_witness :
  fst (apply_edits workspace (VList batch_same_path) 3 300 fs_app) = Ok tt
  /\ file_at (snd (apply_edits workspace (VList batch_same_path) 3 300 fs_app))
       ["ws"; "app"; "main.py"] = Some "def inc(x):
    return x + 2
".
Proof.
  pose proof (same_path_twice workspace
                (patch "app/main.py" "def inc(x):
    return x + 1
") (patch "app/main.py" "def inc(x):
    return x + 2
") 3 300 fs_app fs_app "def inc(x):
    return x - 1
"
                ltac:(vm_compute; reflexivity) ltac:(vm_compute; reflexivity)
                ltac:(vm_compute; reflexivity) ltac:(vm_compute; reflexivity)
                ltac:(vm_compute; discriminate) ltac:(vm_compute; reflexivity)
                ltac:(vm_compute; reflexivity) ltac:(vm_compute; discriminate)) as H.
  change (VList batch_same_path) with
    (VList [patch "app/main.py" "def inc(x):
    return x + 1
"; patch "app/main.py" "def inc(x):
    return x + 2
"]).
  rewrite H. split; vm_compute; reflexivity.
Defined.

End Examples.

(** ** More on the patch gate *)

Section PatchGateMore.

Import Effects Patcher Outcome.

(** X1.  A batch that is empty, or [None], is not an error: [apply_edits]
    returns at once and leaves the file system as it is, whatever the
    limits. *)
Theorem apply_edits_nothing_proposed ws patches max_files mtl fs :
  Py.truthy patches = false ->
  apply_edits ws patches max_files mtl fs = (Ok tt, fs).
Proof.
  intros H. unfold apply_edits, Py.or_. rewrite H. reflexivity.
Qed.

(** X2.  A batch with more proposals than [max_files] is rejected before
    any proposal is looked at: not even a directory is created. *)
Theorem apply_edits_too_many_files ws items max_files mtl fs :
  items <> [] -> max_files < Z.of_nat (length items) ->
  apply_edits ws (VList items) max_files mtl fs =
  (Raise (ValueError (TooManyFiles (Z.of_nat (length items)) max_files)), fs).
Proof.
  intros Hne Hlen. rewrite apply_edits_list. destruct items as [|p rest]; [done|].
  by assert ((max_files <? Z.of_nat (length (p :: rest))) = true) as -> by lia.
Qed.

(** X3.  [_validate_schema] accepts exactly the dictionaries that hold a
    string under ["path"] and a string under ["new_text"]. *)
Theorem validate_schema_accepts p :
  fst (_validate_schema p) = true <->
  exists d path new_text,
    p = VDict d /\ Py.get "path" d = Some (VStr path)
    /\ Py.get "new_text" d = Some (VStr new_text).
Proof.
  split.
  - unfold _validate_schema. destruct p as [| | | | |d]; try done.
    destruct (Py.get "path" d) as [v1|] eqn:H1; [|done].
    destruct (Py.get "new_text" d) as [v2|] eqn:H2; [|done].
    destruct v1; try done. destruct v2; try done. eauto 10.
  - intros (d & path & text & -> & H1 & H2). unfold _validate_schema.
    by rewrite H1, H2.
Qed.

(** What the first loop returns when it returns. *)
Lemma check_patches_ok ws mtl items : forall total tw fs tw' fs',
  check_patches ws mtl items total tw fs = (Ok tw', fs') ->
  tw' = (tw ++ edits ws items)%list /\ Forall (accepted ws) items.
Proof.
  induction items as [|p rest IH]; intros total tw fs tw' fs'.
  - intros [= <- <-]. by rewrite app_nil_r.
  - rewrite check_patches_cons. cbv zeta.
    destruct (fst (_validate_schema p)) eqn:Hs; [|done].
    destruct (_is_safe_path ws _) eqn:Hp; [|done]. simpl negb. cbv iota.
    destruct (mkdir_parents _ fs) as [[u|e] fs1]; [|done].
    destruct (on_disk fs1 _) as [old|e]; [|done].
    destruct (mtl <? _); [done|].
    intros H. apply IH in H as [-> Hrest]. split.
    + by rewrite <- app_assoc.
    + by constructor.
Qed.

(** What the second loop leaves when it returns. *)
Lemma write_all_ok tw : forall fs fs',
  write_all tw fs = (Ok tt, fs') -> fs' = fold_left put tw fs.
Proof.
  induction tw as [|[fp content] tw IH]; intros fs fs'.
  - by intros [= <-].
  - cbn [write_all fold_left]. unfold mbind, M_bind.
    destruct (write_text fp content fs) as [[u|e] fs1] eqn:Hw; [|done].
    intros H. apply IH in H as ->. f_equal.
    unfold write_text in Hw. destruct (walk fs [] fp) as [c|e] eqn:Hwalk; [|done].
    apply walk_resolve in Hwalk. destruct (is_dir_at fs c); [done|].
    by simplify_eq.
Qed.

(** X4.  When [apply_edits] returns, every proposal passed the schema
    check and the path check, the batch was within [max_files], and the
    file system is the one it found, with the directories of the targets
    where they were missing and with each proposal's text, its line ends
    normalized, written to its resolved target in the order of the
    batch. *)
Theorem apply_edits_returns ws items max_files mtl fs fs' :
  items <> [] ->
  apply_edits ws (VList items) max_files mtl fs = (Ok tt, fs') ->
  Forall (accepted ws) items
  /\ Z.of_nat (length items) <= max_files
  /\ exists fs1, only_new_dirs fs fs1 /\ fs' = fold_left put (edits ws items) fs1.
Proof.
  intros Hne. rewrite apply_edits_list. destruct items as [|p rest]; [done|].
  destruct (max_files <? _) eqn:Hlen; [done|].
  destruct (check_patches ws mtl (p :: rest) 0 [] fs) as [[tw|e] fs1] eqn:Hc; [|done].
  intros Hw. pose proof (check_patches_grows _ _ _ _ _ _ _ _ Hc) as Hg.
  apply check_patches_ok in Hc as [-> Hacc]. apply write_all_ok in Hw.
  split; [done|]. split; [lia|]. by exists fs1.
Qed.

End PatchGateMore.

Section PatchGateMoreExamples.

Import Effects Patcher Outcome Fixture.

Lemma nothing_proposed_witness :
  Py.truthy VNone = false
  /\ apply_edits workspace VNone 3 300 fs_app = (Ok tt, fs_app).
Proof.
  split; [reflexivity|].
  exact (apply_edits_nothing_proposed workspace VNone 3 300 fs_app eq_refl).
Defined.

Lemma too_many_files_witness :
  apply_edits workspace
    (VList [patch "app/a.py" ""; patch "app/b.py" ""; patch "app/c.py" "";
            patch "app/d.py" ""]) 3 300 fs_app
  = (Raise (ValueError (TooManyFiles 4 3)), fs_app).
Proof.
  exact (apply_edits_too_many_files workspace
           [patch "app/a.py" ""; patch "app/b.py" ""; patch "app/c.py" "";
            patch "app/d.py" ""] 3 300 fs_app
           ltac:(discriminate) ltac:(vm_compute; reflexivity)).
Defined.

Lemma apply_edits_returns_witness :
  batch_same_path <> []
  /\ fst (apply_edits workspace (VList batch_same_path) 3 300 fs_app) = Ok tt
  /\ Forall (accepted workspace) batch_same_path.
Proof.
  split; [discriminate|]. split; [vm_compute; reflexivity|].
  exact (proj1 (apply_edits_returns workspace batch_same_path 3 300 fs_app
                  (snd (apply_edits workspace (VList batch_same_path) 3 300 fs_app))
                  ltac:(discriminate) ltac:(vm_compute; reflexivity))).
Defined.

End PatchGateMoreExamples.

(** ** The path check, line ends and the recorded batch *)

Section PathCheck.

Import Effects Patcher Outcome.

Lemma has_nul_app a b : has_nul (a ++ b) = (has_nul a || has_nul b)%bool.
Proof.
  induction a as [|c a IH]; [done|].
  change (has_nul (String c (a ++ b)) = (has_nul (String c a) || has_nul b)%bool).
  simpl. rewrite IH. by destruct (Ascii.eqb c NUL).
Qed.

(** A NUL character of a text is in one of the pieces [split] cuts it
    into. *)
Lemma split_go_nul sep s : forall cur,
  Ascii.eqb sep NUL = false ->
  existsb has_nul (Str.split_go sep cur s) = (has_nul cur || has_nul s)%bool.
Proof.
  induction s as [|c s IH]; intros cur Hsep; cbn [Str.split_go].
  - simpl. by rewrite !orb_false_r.
  - destruct (Ascii.eqb c sep) eqn:Hc.
    + apply Ascii.eqb_eq in Hc as ->. cbn [existsb has_nul].
      rewrite IH by done. by rewrite Hsep.
    + rewrite IH by done. rewrite has_nul_app. cbn [has_nul].
      by rewrite orb_false_r, orb_assoc.
Qed.

Lemma existsb_filter {A} (f g : A -> bool) l :
  (forall x, f x = true -> g x = true) ->
  existsb f (List.filter g l) = existsb f l.
Proof.
  intros Hfg. induction l as [|x l IH]; [done|]. cbn [List.filter existsb].
  destruct (g x) eqn:Hg; cbn [existsb]; rewrite IH; [done|].
  destruct (f x) eqn:Hf; [|done]. by rewrite (Hfg x Hf) in Hg.
Qed.

(** A NUL character of a path is in one of its segments. *)
Lemma segs_nul rel : existsb has_nul (segs (parse rel)) = has_nul rel.
Proof.
  unfold parse. cbn [segs]. rewrite existsb_filter.
  - unfold Str.split. by rewrite split_go_nul.
  - intros x Hx. unfold keep_segment.
    destruct (String.eqb x "") eqn:H1; [by apply String.eqb_eq in H1 as ->|].
    destruct (String.eqb x ".") eqn:H2; [by apply String.eqb_eq in H2 as ->|].
    done.
Qed.

(** X5.  A path with a NUL character is refused: where its first part
    is [app], [resolve()] raises [ValueError] and the [except] clause
    answers [False]. *)
Theorem path_with_nul_is_refused ws rel :
  has_nul rel = true -> _is_safe_path ws rel = false.
Proof.
  intros Hnul. unfold _is_safe_path, is_safe_path_try, parts.
  destruct (String.eqb (anchor (parse rel)) "") eqn:Ha.
  - destruct (segs (parse rel)) as [|first rest] eqn:Hsegs; [done|].
    destruct (negb (String.eqb first _WHITELIST_ROOT)); [done|].
    unfold Path_resolve, truediv. rewrite Ha, Hsegs, existsb_app, <- Hsegs.
    by rewrite segs_nul, Hnul, orb_true_r.
  - destruct (String.eqb (anchor (parse rel)) _WHITELIST_ROOT) eqn:Hf; [|done].
    apply String.eqb_eq in Hf. unfold parse in Hf. simpl in Hf.
    by repeat case_match.
Qed.

(** X6.  A path that passes [_is_safe_path] is relative and its first
    segment is [app]: an absolute path, an empty path and a path that
    starts elsewhere are refused whatever they resolve to. *)
Theorem safe_path_starts_with_app ws rel :
  _is_safe_path ws rel = true ->
  anchor (parse rel) = "" /\ exists rest, segs (parse rel) = "app" :: rest.
Proof.
  intros H%is_safe_path_passed. revert H. unfold parts.
  destruct (String.eqb (anchor (parse rel)) "") eqn:Ha.
  - apply String.eqb_eq in Ha.
    destruct (segs (parse rel)) as [|first rest]; [done|].
    intros [-> _]. eauto.
  - intros [Hf _]. unfold parse in Hf. simpl in Hf.
    by repeat case_match.
Qed.

Lemma no_cr_app a b : no_cr (a ++ b) = (no_cr a && no_cr b)%bool.
Proof.
  induction a as [|c a IH]; [done|].
  change (no_cr (String c (a ++ b)) = (no_cr (String c a) && no_cr b)%bool).
  simpl. rewrite IH. by destruct (Ascii.eqb c Str.CR).
Qed.

(** X7.  The text [apply_edits] measures and writes has no carriage
    return left: [\r\n] and a lone [\r] both became [\n]. *)
Theorem normalized_text_has_no_carriage_return s :
  no_cr (normalize_newlines s) = true.
Proof.
  unfold normalize_newlines.
  generalize (Str.replace (String Str.CR (String Str.LF "")) (String Str.LF "") s).
  intros t. unfold Str.replace.
  induction t as [|c t IH]; [done|].
  cbn [Str.replace_go]. cbn [Str.startswith].
  destruct (Ascii.eqb Str.CR c) eqn:Hc.
  - assert (Str.startswith t "" = true) as -> by by destruct t.
    simpl Nat.pred.
    change (no_cr (String Str.LF (Str.replace_go (String Str.CR "") (String Str.LF "") 0 t)) = true).
    simpl. exact IH.
  - simpl. rewrite IH. by rewrite Ascii.eqb_sym, Hc.
Qed.

End PathCheck.

Section PathCheckExamples.

Import Effects Patcher Outcome Fixture.

Lemma path_with_nul_witness :
  has_nul ("app/" ++ String NUL "x.py") = true
  /\ _is_safe_path workspace ("app/" ++ String NUL "x.py") = false.
Proof.
  split; [reflexivity|].
  exact (path_with_nul_is_refused workspace ("app/" ++ String NUL "x.py") eq_refl).
Defined.

Lemma safe_path_witness :
  _is_safe_path workspace "app/../app/main.py" = true
  /\ anchor (parse "app/../app/main.py") = ""
  /\ exists rest, segs (parse "app/../app/main.py") = "app" :: rest.
Proof.
  split; [vm_compute; reflexivity|].
  exact (safe_path_starts_with_app workspace "app/../app/main.py"
           ltac:(vm_compute; reflexivity)).
Defined.

End PathCheckExamples.

(** ** Rules: what [_dedupe] keeps *)

Section Dedupe.

Import Reflect Rules.

(** One round of the loop of [_dedupe] on a dictionary. *)
Lemma dedupe_loop_cons max_items d rest seen out :
  dedupe_loop default_key max_items (VDict d :: rest) seen out =
  if negb (forallb hashable (key_of (VDict d))) then Raise TypeError
  else if in_seen (key_of (VDict d)) seen
       then if max_items <=? Z.of_nat (length out) then Ok out
            else dedupe_loop default_key max_items rest seen out
       else if max_items <=? Z.of_nat (length (out ++ [VDict d])) then Ok (out ++ [VDict d])%list
            else dedupe_loop default_key max_items rest
                   (key_of (VDict d) :: seen) (out ++ [VDict d])%list.
Proof.
  cbn [dedupe_loop]. fold (key_of (VDict d)).
  destruct (forallb hashable (key_of (VDict d))); [|done].
  by destruct (in_seen (key_of (VDict d)) seen).
Qed.

(** The loop of [_dedupe], with what it has seen and kept so far. *)
Lemma dedupe_loop_spec max_items seq : forall seen out res,
  0 < max_items ->
  dedupe_loop default_key max_items seq seen out = Ok res ->
  Z.of_nat (length out) < max_items ->
  map key_of out = rev seen ->
  fresh_keys seen = true ->
  Forall (fun item => keyed item = true) out ->
  Z.of_nat (length res) <= max_items
  /\ (exists kept, res = (out ++ kept)%list /\ sublist kept seq)
  /\ fresh_keys (rev (map key_of res)) = true
  /\ Forall (fun item => keyed item = true) res.
Proof.
  induction seq as [|item rest IH]; intros seen out res Hmax.
  - intros [= <-] Hlen Hkeys Hfresh Hout. split; [lia|]. split.
    + exists []. by rewrite app_nil_r.
    + rewrite Hkeys, rev_involutive. done.
  - destruct item as [| | | | |d]; try done.
    rewrite dedupe_loop_cons.
    set (k := key_of (VDict d)).
    destruct (forallb hashable k) eqn:Hh; [|done]. simpl negb. cbv iota.
    destruct (in_seen k seen) eqn:Hin.
    + (* a key seen before: the item is skipped *)
      destruct (max_items <=? Z.of_nat (length out)) eqn:Hb;
        intros Hres Hlen Hkeys Hfresh Hout; [lia|].
      destruct (IH _ _ _ Hmax Hres Hlen Hkeys Hfresh Hout)
        as (H1 & (kept & -> & Hsub) & H3 & H4).
      repeat split; try done. exists kept. split; [done|]. by apply sublist_cons.
    + (* a new key: the item is kept *)
      destruct (max_items <=? Z.of_nat (length (out ++ [VDict d]))) eqn:Hb;
        intros Hres Hlen Hkeys Hfresh Hout.
      all: assert (map key_of (out ++ [VDict d]) = rev (k :: seen)) as Hkeys'
        by (rewrite map_app, Hkeys; done).
      all: assert (fresh_keys (k :: seen) = true) as Hfresh'
        by (simpl; by rewrite Hin, Hfresh).
      all: assert (Forall (fun item => keyed item = true) (out ++ [VDict d])) as Hout'
        by (apply Forall_app; split; [done|]; constructor; [exact Hh|done]).
      * injection Hres as <-.
        split; [rewrite length_app in *; cbn [length] in *; lia|]. split.
        { exists [VDict d]. split; [done|]. apply sublist_skip, sublist_nil_l. }
        split; [|done]. by rewrite Hkeys', rev_involutive.
      * assert (Z.of_nat (length (out ++ [VDict d])) < max_items) as Hlen' by lia.
        destruct (IH _ _ _ Hmax Hres Hlen' Hkeys' Hfresh' Hout')
          as (H1 & (kept & -> & Hsub) & H3 & H4).
        repeat split; try done. exists (VDict d :: kept).
        split; [by rewrite <- app_assoc|]. by apply sublist_skip.
Qed.

(** X8.  What [_dedupe] returns has at most 64 items, is a sublist of its
    argument (the items it keeps are items of the argument, in the order of
    the argument), and no item of it has the key of an item before it. *)
Theorem dedupe_keeps_first_of_each_key seq out :
  _dedupe seq = Ok out ->
  (length out <= 64)%nat
  /\ sublist out seq
  /\ fresh_keys (rev (map key_of out)) = true.
Proof.
  intros H. unfold _dedupe in H.
  destruct (dedupe_loop_spec default_max_items seq [] [] out ltac:(done) H
              ltac:(done) eq_refl eq_refl ltac:(constructor))
    as (H1 & (kept & -> & Hsub) & H3 & _).
  unfold default_max_items in H1. split; [simpl in *; lia|]. done.
Qed.

End Dedupe.

Section DedupeExamples.

Import Reflect Rules.

Lemma dedupe_witness :
  _dedupe [rule "a" "p" "x"; rule "a" "q" "x"; rule "b" "p" "y"]
  = Ok [rule "a" "p" "x"; rule "b" "p" "y"]
  /\ sublist [rule "a" "p" "x"; rule "b" "p" "y"]
       [rule "a" "p" "x"; rule "a" "q" "x"; rule "b" "p" "y"].
Proof.
  split; [reflexivity|].
  exact (proj1 (proj2 (dedupe_keeps_first_of_each_key
                         [rule "a" "p" "x"; rule "a" "q" "x"; rule "b" "p" "y"]
                         [rule "a" "p" "x"; rule "b" "p" "y"] eq_refl))).
Defined.

End DedupeExamples.

(** ** [reflect_update]: what it keeps and when it returns *)

Section ReflectUpdate.

Import Reflect Rules.

Context (E : Externals).

Lemma get_setdefault_ne k k' v (d : dict) :
  k <> k' -> Py.get k' (Py.setdefault k v d) = Py.get k' d.
Proof.
  intros Hne. unfold Py.setdefault. destruct (Py.mem k d); [done|].
  by apply get_set_ne.
Qed.

Lemma get_setdefault_eq k v (d : dict) :
  Py.get k (Py.setdefault k v d) = Some (Py.get_default k v d).
Proof.
  unfold Py.setdefault, Py.mem, Py.get_default.
  destruct (Py.get k d) as [x|] eqn:Hk; [done|]. apply get_set_eq.
Qed.

(** X9.  [reflect_update] on a dictionary returns a dictionary in which
    only ["heuristics"] is replaced: ["fix_snippets"] keeps its value, or
    is the empty list when it was missing, and every other entry, such as
    ["style"] or ["knowledge_packs"], is as it was. *)
Theorem reflect_update_keeps_other_entries d test_log res :
  reflect_update E (VDict d) test_log = Ok res ->
  exists d' hs,
    res = VDict d'
    /\ Py.get "heuristics" d' = Some (VList hs)
    /\ Py.get "fix_snippets" d' = Some (Py.get_default "fix_snippets" (VList []) d)
    /\ forall k, k <> "heuristics" -> k <> "fix_snippets" -> Py.get k d' = Py.get k d.
Proof.
  unfold reflect_update.
  destruct (Py.or_ test_log (VStr "")) as [| | |log| |]; try done.
  destruct (Py.iter _) as [existing|e]; [|done].
  destruct (_dedupe _) as [hs|e]; [|done].
  intros [= <-]. eexists _, hs. split; [done|]. split; [apply get_set_eq|]. split.
  - rewrite get_set_ne by done. rewrite get_setdefault_eq.
    unfold Py.get_default. by rewrite get_setdefault_ne.
  - intros k H1 H2. by rewrite get_set_ne, !get_setdefault_ne.
Qed.

(** X10.  A memory that is not a dictionary is not an error: it is
    replaced by the empty record, so that [reflect_update] gives what it
    gives for the empty dictionary. *)
Theorem reflect_update_replaces_non_dict memory test_log :
  (forall d, memory <> VDict d) ->
  reflect_update E memory test_log = reflect_update E (VDict []) test_log.
Proof.
  intros H. destruct memory as [| | | | |d]; try reflexivity. by destruct (H d).
Qed.

Lemma rule_keyed t p a : keyed (rule t p a) = true.
Proof. reflexivity. Qed.

(** On items it can take, the loop of [_dedupe] returns. *)
Lemma dedupe_loop_returns max_items seq : forall seen out,
  Forall (fun item => keyed item = true) seq ->
  exists res, dedupe_loop default_key max_items seq seen out = Ok res.
Proof.
  induction seq as [|item rest IH]; intros seen out Hseq; [by eexists|].
  inversion Hseq as [|? ? Hk Hrest]; subst.
  destruct item as [| | | | |d]; try done.
  rewrite dedupe_loop_cons.
  change (forallb hashable (key_of (VDict d)) = true) in Hk.
  rewrite Hk. simpl negb. cbv iota.
  destruct (in_seen _ seen).
  - destruct (_ <=? _); [by eexists | by apply IH].
  - destruct (_ <=? _); [by eexists | by apply IH].
Qed.

(** X11.  [reflect_update] returns, for every log, when the memory is a
    dictionary whose ["heuristics"] entry is missing or is a list of
    dictionaries with hashable ["tag"], ["regex"] and ["advice"]
    entries. *)
Theorem reflect_update_returns d existing log :
  Py.get_default "heuristics" (VList []) d = VList existing ->
  Forall (fun item => keyed item = true) existing ->
  exists res, reflect_update E (VDict d) (VStr log) = Ok res.
Proof.
  intros Hh Hk. unfold reflect_update.
  assert (Py.or_ (VStr log) (VStr "") = VStr log) as ->.
  { unfold Py.or_. simpl. by destruct log. }
  assert (Py.get_default "heuristics" VNone
            (Py.setdefault "fix_snippets" (VList [])
               (Py.setdefault "heuristics" (VList []) d)) = VList existing) as ->.
  { unfold Py.get_default at 1. rewrite get_setdefault_ne by done.
    by rewrite get_setdefault_eq. }
  simpl Py.iter. cbv iota. unfold _dedupe.
  destruct (dedupe_loop_returns default_max_items
              (existing ++ (mined E log ++ name_error_rule E log)) [] []) as [res ->].
  - apply Forall_app. split; [done|]. apply Forall_app. split.
    + unfold mined. apply Forall_forall. intros x Hx.
      apply list_elem_of_In, in_map_iff in Hx as (pat & <- & _). apply rule_keyed.
    + unfold name_error_rule. destruct (re_name_error E log); repeat constructor.
  - by eexists.
Qed.

End ReflectUpdate.

Section ReflectUpdateExamples.

Import Reflect Rules Fixture.

Lemma reflect_update_keeps_witness :
  exists d' hs,
    reflect_update (externals failing_runner)
      (VDict [("style", VStr "pep8"); ("heuristics", VList [rule "t" "p" "a"])])
      (VStr "1 failed") = Ok (VDict d')
    /\ Py.get "heuristics" d' = Some (VList hs)
    /\ Py.get "style" d' = Some (VStr "pep8").
Proof.
  destruct (reflect_update_keeps_other_entries (externals failing_runner)
              [("style", VStr "pep8"); ("heuristics", VList [rule "t" "p" "a"])]
              (VStr "1 failed")
              (VDict [("style", VStr "pep8"); ("heuristics", VList [rule "t" "p" "a"]);
                      ("fix_snippets", VList [])])
              eq_refl) as (d' & hs & Hres & Hh & _ & Hother).
  exists d', hs. injection Hres as <-. split; [reflexivity|]. split; [exact Hh|].
  reflexivity.
Defined.

Lemma reflect_update_non_dict_witness :
  reflect_update (externals failing_runner) VNone (VStr "1 failed")
  = reflect_update (externals failing_runner) (VDict []) (VStr "1 failed").
Proof.
  exact (reflect_update_replaces_non_dict (externals failing_runner) VNone
           (VStr "1 failed") ltac:(discriminate)).
Defined.

Lemma reflect_update_returns_witness :
  exists res,
    reflect_update (externals failing_runner)
      (VDict [("heuristics", VList [rule "t" "p" "a"])]) (VStr "1 failed") = Ok res.
Proof.
  exact (reflect_update_returns (externals failing_runner)
           [("heuristics", VList [rule "t" "p" "a"])] [rule "t" "p" "a"] "1 failed"
           eq_refl ltac:(repeat constructor)).
Defined.

End ReflectUpdateExamples.

(** ** The memory file: loading, saving, and loading what was saved *)

Section MemoryFile.

Import Reflect.

Context (E : Externals).

(** X12.  [load_memory] gives the empty record, and leaves the file
    system alone, when the file does not exist, when it cannot be read
    (it is a directory, say), when its text does not parse, and when it is
    empty and the parser reads ["{}"] as the empty object. *)
Theorem load_memory_falls_back mem_path fs :
  exists_ fs mem_path = false
  \/ (exists e, fst (read_text mem_path fs) = Raise e)
  \/ (exists raw, fst (read_text mem_path fs) = Ok raw
                  /\ json_loads E (if String.eqb raw "" then "{}" else raw) = None)
  \/ (fst (read_text mem_path fs) = Ok "" /\ json_loads E "{}" = Some (VDict [])) ->
  load_memory E mem_path fs =
  (Ok (VDict [("heuristics", VList []); ("fix_snippets", VList [])]), fs).
Proof. apply load_memory_recovers. Qed.

(** X13.  When the text of the file parses to an object, [load_memory]
    returns that object with the two lists: an entry it has keeps its
    value, ["heuristics"] and ["fix_snippets"] are the empty list when
    missing; the file system is not changed. *)
Theorem load_memory_completes_object mem_path fs raw d :
  exists_ fs mem_path = true ->
  fst (read_text mem_path fs) = Ok raw ->
  json_loads E (if String.eqb raw "" then "{}" else raw) = Some (VDict d) ->
  exists d',
    load_memory E mem_path fs = (Ok (VDict d'), fs)
    /\ Py.get "heuristics" d' = Some (Py.get_default "heuristics" (VList []) d)
    /\ Py.get "fix_snippets" d' = Some (Py.get_default "fix_snippets" (VList []) d)
    /\ forall k, k <> "heuristics" -> k <> "fix_snippets" -> Py.get k d' = Py.get k d.
Proof.
  intros Hex Hread Hparse.
  rewrite (proj2 (load_memory_recovers E mem_path fs) raw d Hex Hread Hparse).
  eexists. split; [done|]. split; [|split].
  - rewrite get_setdefault_ne by done. apply get_setdefault_eq.
  - rewrite get_setdefault_eq. unfold Py.get_default.
    by rewrite get_setdefault_ne.
  - intros k H1 H2. by rewrite !get_setdefault_ne.
Qed.

(** What a write that returned leaves. *)
Lemma write_text_written p s fs fs' :
  write_text p s fs = (Ok tt, fs') ->
  fs' = <[resolve p := File s]> fs
  /\ exists_ fs' p = true
  /\ fst (read_text p fs') = Ok s.
Proof.
  unfold write_text. destruct (walk fs [] p) as [c|e] eqn:Hw; [|done].
  pose proof (walk_resolve _ _ _ _ Hw) as Hc. fold (resolve p) in Hc. subst c.
  destruct (is_dir_at fs (resolve p)) eqn:Hnd; [done|]. intros [= <-].
  destruct (on_disk_written fs p s Hw Hnd) as [Hk _].
  pose proof (walk_keeps _ _ _ _ _ Hk Hw) as Hw'.
  split; [done|]. unfold exists_, read_text, reads. rewrite Hw'. simpl.
  destruct (resolve p) as [|x c] eqn:Hr; [done|]. simpl.
  by rewrite lookup_insert_eq.
Qed.

(** What [save_memory] leaves when it returns. *)
Lemma save_memory_ok mem_path d fs m fs' :
  save_memory E mem_path (VDict d) fs = (Ok m, fs') ->
  m = VDict (Py.set "_updated_at" (VInt (time_time E)) d)
  /\ exists_ fs' mem_path = true
  /\ fst (read_text mem_path fs') = Ok (Json.dumps m)
  /\ forall c, c <> resolve mem_path -> file_at fs' c = file_at fs c.
Proof.
  unfold save_memory. unfold mbind, M_bind, mret, M_ret.
  destruct (mkdir_parents (parent mem_path) fs) as [[u|e] fs1] eqn:Hmk; [|done].
  destruct (write_text mem_path _ fs1) as [[[]|e] fs2] eqn:Hw; [|done].
  intros [= <- <-]. apply write_text_written in Hw as (-> & Hex & Hread).
  split; [done|]. split; [done|]. split; [done|].
  intros c Hc. unfold file_at. rewrite lookup_insert_ne by done.
  apply mkdir_parents_grows, only_new_dirs_same_files in Hmk. apply Hmk.
Qed.

(** X14.  When [save_memory] returns for a dictionary, the dictionary it
    leaves is the argument with ["_updated_at"] set to the time, the
    memory file holds its serialization, and no other regular file
    changed. *)
Theorem save_memory_writes_stamped_record mem_path d fs m fs' :
  save_memory E mem_path (VDict d) fs = (Ok m, fs') ->
  m = VDict (Py.set "_updated_at" (VInt (time_time E)) d)
  /\ exists_ fs' mem_path = true
  /\ fst (read_text mem_path fs') = Ok (Json.dumps m)
  /\ forall c, c <> resolve mem_path -> file_at fs' c = file_at fs c.
Proof. apply save_memory_ok. Qed.

Lemma dumps_dict_not_empty k v (d : dict) :
  String.eqb (Json.dumps (VDict (Py.set k v d))) "" = false.
Proof.
  destruct (Py.set k v d) as [|[k' v'] d'] eqn:Hset.
  - destruct d as [|[k0 v0] d0]; simpl in Hset; [done|].
    by destruct (String.eqb k k0).
  - reflexivity.
Qed.

(** X15.  Loading what was saved: after [save_memory] returned for a
    dictionary that has ["heuristics"] and ["fix_snippets"],
    [load_memory] on the same path returns the saved dictionary, time
    stamp included, provided the parser reads the serialized dictionary
    back. *)
Theorem load_memory_after_save mem_path d fs m fs' :
  save_memory E mem_path (VDict d) fs = (Ok m, fs') ->
  Py.mem "heuristics" d = true ->
  Py.mem "fix_snippets" d = true ->
  json_loads E (Json.dumps m) = Some m ->
  load_memory E mem_path fs' = (Ok m, fs').
Proof.
  intros Hsave Hh Hf Hparse.
  apply save_memory_ok in Hsave as (-> & Hex & Hread & _).
  unfold load_memory, reads. rewrite Hex, Hread, dumps_dict_not_empty, Hparse.
  do 3 f_equal. unfold Py.setdefault, Py.mem in *.
  rewrite get_set_ne by done.
  destruct (Py.get "heuristics" d); [|done].
  rewrite get_set_ne by done. by destruct (Py.get "fix_snippets" d).
Qed.

End MemoryFile.

Section MemoryFileExamples.

Import Reflect Fixture Doubles.

Lemma load_memory_falls_back_witness :
  exists_ fs_app (Cli.memory_path workspace) = false
  /\ load_memory (externals failing_runner) (Cli.memory_path workspace) fs_app
     = (Ok (VDict [("heuristics", VList []); ("fix_snippets", VList [])]), fs_app).
Proof.
  assert (exists_ fs_app (Cli.memory_path workspace) = false) as H
    by (vm_compute; reflexivity).
  split; [exact H|].
  exact (load_memory_falls_back (externals failing_runner) (Cli.memory_path workspace)
           fs_app (or_introl H)).
Defined.

Lemma load_memory_completes_witness :
  exists d',
    load_memory (externals failing_runner) (Cli.memory_path workspace) fs_empty_object
    = (Ok (VDict d'), fs_empty_object)
    /\ Py.get "heuristics" d' = Some (VList []).
Proof.
  destruct (load_memory_completes_object (externals failing_runner)
              (Cli.memory_path workspace) fs_empty_object "{}" []
              ltac:(vm_compute; reflexivity) ltac:(vm_compute; reflexivity)
              ltac:(vm_compute; reflexivity)) as (d' & Hload & Hh & _).
  exists d'. split; [exact Hload | exact Hh].
Defined.

Lemma save_memory_witness :
  fst (save_memory (externals failing_runner) (Cli.memory_path workspace)
         (VDict record) fs_app)
  = Ok (VDict (Py.set "_updated_at" (VInt 0) record))
  /\ fst (read_text (Cli.memory_path workspace)
            (snd (save_memory (externals failing_runner) (Cli.memory_path workspace)
                    (VDict record) fs_app)))
     = Ok (Json.dumps (VDict (Py.set "_updated_at" (VInt 0) record))).
Proof.
  split; [vm_compute; reflexivity|].
  exact (proj1 (proj2 (proj2
           (save_memory_writes_stamped_record (externals failing_runner)
              (Cli.memory_path workspace) record fs_app
              (VDict (Py.set "_updated_at" (VInt 0) record))
              (snd (save_memory (externals failing_runner) (Cli.memory_path workspace)
                      (VDict record) fs_app))
              ltac:(vm_compute; reflexivity))))).
Defined.

Lemma load_after_save_witness :
  load_memory (reading (VDict (Py.set "_updated_at" (VInt 7) record)))
    (Cli.memory_path workspace)
    (snd (save_memory (reading (VDict (Py.set "_updated_at" (VInt 7) record)))
            (Cli.memory_path workspace) (VDict record) fs_app))
  = (Ok (VDict (Py.set "_updated_at" (VInt 7) record)),
     snd (save_memory (reading (VDict (Py.set "_updated_at" (VInt 7) record)))
            (Cli.memory_path workspace) (VDict record) fs_app)).
Proof.
  exact (load_memory_after_save
           (reading (VDict (Py.set "_updated_at" (VInt 7) record)))
           (Cli.memory_path workspace) record fs_app
           (VDict (Py.set "_updated_at" (VInt 7) record))
           (snd (save_memory (reading (VDict (Py.set "_updated_at" (VInt 7) record)))
                   (Cli.memory_path workspace) (VDict record) fs_app))
           ltac:(vm_compute; reflexivity) eq_refl eq_refl
           ltac:(vm_compute; reflexivity)).
Defined.

End MemoryFileExamples.
